(** * ForgeDAO: the patch annotator of [proposalDetails.tsx]

    A shallow embedding of [parsePatch]
    (src/component/collaboration/proposalDetails.tsx, lines 217-248), the
    helper that turns the [patch] field of a GitHub file change into the
    list of [{type, line, content}] records shown on the proposal page.

    Conventions of the embedding.
    - A JavaScript string is a [string]: the code only compares code units
      with ASCII characters (newline, [@], [+], [-], backslash, space, comma
      and the decimal digits), so one [ascii] stands for one code unit.
    - A JavaScript number holding a line number is read twice.  The exact
      reading ([loop_body], [parsePatch]) computes with the integers, a [Z]:
      it is what the code computes as long as the cursor stays below 2^53,
      which is every patch without a hunk header that large.  The reading
      on doubles ([Doubles.loop_body], [Doubles.parsePatch]) rounds as
      [parseInt] and [++] round, and is what the code computes on every
      input.  Lemma [scan_exact] relates the two.
    - The [for ... of] loop is a left fold of its body over the lines, the
      two mutable locals [currentLine] and [changes] being the state. *)

From Stdlib Require Import ZArith List Lia Bool Ascii String Sorting.Sorted.
From Stdlib Require Import DecimalString DecimalNat.
Import ListNotations.

Local Open Scope string_scope.
Local Open Scope Z_scope.

(** ** The JavaScript built-ins the function calls *)

Module JS.

(** [s.startsWith(p)] *)
Fixpoint startsWith (s p : string) {struct p} : bool :=
  match p, s with
  | EmptyString, _ => true
  | String _ _, EmptyString => false
  | String b p', String a s' => Ascii.eqb a b && startsWith s' p'
  end.

(** [s.split(sep)] for a separator of one code unit.  [split_aux] returns
    the piece before the first separator and the pieces after it, so that
    the empty string splits into one empty piece, as in JavaScript. *)
Fixpoint split_aux (s : string) (sep : ascii) : string * list string :=
  match s with
  | EmptyString => (EmptyString, [])
  | String c s' =>
      let (piece, pieces) := split_aux s' sep in
      if Ascii.eqb c sep then (EmptyString, piece :: pieces)
      else (String c piece, pieces)
  end.

Definition split (s : string) (sep : ascii) : list string :=
  let (piece, pieces) := split_aux s sep in piece :: pieces.

(** [a.slice(b, e)] for indices that are not negative. *)
Definition slice {A : Type} (a : list A) (b e : nat) : list A :=
  firstn (e - b) (skipn b a).

(** [a.push(x)], as the array it leaves. *)
Definition push {A : Type} (a : list A) (x : A) : list A := (a ++ [x])%list.

(** The class [\d] of a regular expression without the [u] flag. *)
Definition is_digit (c : ascii) : bool :=
  let n := N_of_ascii c in (48 <=? n)%N && (n <=? 57)%N.

Definition digit_value (c : ascii) : Z := Z.of_N (N_of_ascii c) - 48.

(** [parseInt(s)] on the strings the code gives it: it reads decimal
    digits up to the first code unit that is not one.  The only argument
    in the code is the second group of the hunk pattern, a run of one or
    more digits (lemma [hunk_header_groups] below), so neither the sign,
    the radix prefix nor the [NaN] of a string without digits arises.
    This is the integer the digits write; the code holds the double
    nearest to it ([JSNumber.parseInt] below), the same number below
    2^53. *)
Fixpoint parse_digits (acc : Z) (s : string) : Z :=
  match s with
  | String c s' =>
      if is_digit c then parse_digits (10 * acc + digit_value c) s' else acc
  | EmptyString => acc
  end.

Definition parseInt (s : string) : Z := parse_digits 0 s.

End JS.

(** ** Regular expressions, by backtracking

    The matcher of a pattern is a function from the subject at the current
    position to an optional result, written in continuation-passing style:
    every construct tries its alternatives in the order of the ECMAScript
    matcher (greedy: the longest first) and backtracks into the next one
    when its continuation fails. *)

Module RegExp.

Section Matcher.
Context {R : Type}.

Definition matcher := string -> option R.

(** One literal code unit. *)
Definition chr (c : ascii) (k : matcher) : matcher :=
  fun s =>
    match s with
    | String a s' => if Ascii.eqb a c then k s' else None
    | EmptyString => None
    end.

(** A literal word. *)
Fixpoint lit (w : string) (k : matcher) : matcher :=
  match w with
  | EmptyString => k
  | String c w' => chr c (lit w' k)
  end.

(** [c?] *)
Definition opt (c : ascii) (k : matcher) : matcher :=
  fun s =>
    match chr c k s with
    | Some r => Some r
    | None => k s
    end.

(** [\d*]; the continuation receives the digits consumed. *)
Fixpoint digit_star (k : string -> matcher) (s : string) : option R :=
  match s with
  | String a s' =>
      if JS.is_digit a then
        match digit_star (fun ds => k (String a ds)) s' with
        | Some r => Some r
        | None => k EmptyString s
        end
      else k EmptyString s
  | EmptyString => k EmptyString s
  end.

(** [\d+] *)
Definition digit_plus (k : string -> matcher) : matcher :=
  fun s =>
    match s with
    | String a s' =>
        if JS.is_digit a then digit_star (fun ds => k (String a ds)) s'
        else None
    | EmptyString => None
    end.

(** A pattern without the [y] flag is tried at every position of the
    subject, from the left; the first position where it matches wins. *)
Fixpoint search (m : matcher) (s : string) : option R :=
  match m s with
  | Some r => Some r
  | None =>
      match s with
      | String _ s' => search m s'
      | EmptyString => None
      end
  end.

End Matcher.

(** The capture groups of a match of the hunk pattern: [match[1]] and
    [match[2]].  Both groups are mandatory, so both are strings. *)
Record groups := { group1 : string; group2 : string }.

(** [/@@ -(\d+),?\d* \+(\d+),?\d* @@/] at one position. *)
Definition hunk_header_at : string -> option groups :=
  lit "@@ -" (digit_plus (fun g1 =>
  opt "," (digit_star (fun _ =>
  lit " +" (digit_plus (fun g2 =>
  opt "," (digit_star (fun _ =>
  lit " @@" (fun _ => Some {| group1 := g1; group2 := g2 |}))))))))).

(** [line.match(/@@ -(\d+),?\d* \+(\d+),?\d* @@/)]; [None] is [null]. *)
Definition hunk_header (line : string) : option groups :=
  search hunk_header_at line.

End RegExp.

(** ** The function *)

Inductive change_type := addition | deletion.

Record change := { type : change_type; line : Z; content : string }.

(** The two locals the loop assigns. *)
Record state := { currentLine : Z; changes : list change }.

Definition newline : ascii := "010"%char.

Definition initial : state := {| currentLine := 0; changes := [] |}.

(** The body of [for (const line of lines)], lines 223-244, in the exact
    reading of the numbers. *)
Definition loop_body (st : state) (line : string) : state :=
  if JS.startsWith line "@@" then
    match RegExp.hunk_header line with
    | Some m =>
        {| currentLine := JS.parseInt (RegExp.group2 m);
           changes := changes st |}
    | None => st
    end
  else if JS.startsWith line "+" && negb (JS.startsWith line "+++") then
    {| currentLine := currentLine st + 1;
       changes :=
         JS.push (changes st)
           {| type := addition; line := currentLine st; content := line |} |}
  else if JS.startsWith line "-" && negb (JS.startsWith line "---") then
    {| currentLine := currentLine st;
       changes :=
         JS.push (changes st)
           {| type := deletion; line := currentLine st; content := line |} |}
  else if negb (JS.startsWith line "\") then
    {| currentLine := currentLine st + 1; changes := changes st |}
  else st.

(** The loop over [lines], from a given state. *)
Definition scan (lines : list string) (st : state) : state :=
  fold_left loop_body lines st.

(** [parsePatch], lines 217-248. *)
Definition parsePatch (patch : string) : list change :=
  let lines := JS.split patch newline in
  let st := scan lines initial in
  JS.slice (changes st) 0 10.

(** ** Vocabulary of the statements *)

(** A line the loop records as an addition, and one it records as a
    deletion; a qualifying line is either. *)
Definition addition_line (l : string) : bool :=
  JS.startsWith l "+" && negb (JS.startsWith l "+++").

Definition deletion_line (l : string) : bool :=
  JS.startsWith l "-" && negb (JS.startsWith l "---").

Definition qualifying (l : string) : bool :=
  addition_line l || deletion_line l.

(** The records the loop has pushed when it ends, before the truncation. *)
Definition emitted (patch : string) : list change :=
  changes (scan (JS.split patch newline) initial).

Definition LF : string := String newline EmptyString.

(** The cases of the loop body, as a relation between the state before a
    line and the state after it. *)
Inductive body_case (st : state) (l : string) : state -> Prop :=
| case_header m :
    JS.startsWith l "@@" = true -> RegExp.hunk_header l = Some m ->
    body_case st l {| currentLine := JS.parseInt (RegExp.group2 m);
                      changes := changes st |}
| case_bad_header :
    JS.startsWith l "@@" = true -> RegExp.hunk_header l = None ->
    body_case st l st
| case_addition :
    JS.startsWith l "@@" = false -> addition_line l = true ->
    body_case st l
      {| currentLine := currentLine st + 1;
         changes := (changes st ++ [{| type := addition;
                                       line := currentLine st;
                                       content := l |}])%list |}
| case_deletion :
    JS.startsWith l "@@" = false -> addition_line l = false ->
    deletion_line l = true ->
    body_case st l
      {| currentLine := currentLine st;
         changes := (changes st ++ [{| type := deletion;
                                       line := currentLine st;
                                       content := l |}])%list |}
| case_context :
    JS.startsWith l "@@" = false -> qualifying l = false ->
    JS.startsWith l "\" = false ->
    body_case st l {| currentLine := currentLine st + 1;
                      changes := changes st |}
| case_marker :
    JS.startsWith l "@@" = false -> qualifying l = false ->
    JS.startsWith l "\" = true ->
    body_case st l st.

(** Strings of decimal digits, and the optional length of a hunk header:
    nothing, or a comma and digits. *)
Fixpoint digits (s : string) : bool :=
  match s with
  | EmptyString => true
  | String c s' => JS.is_digit c && digits s'
  end.

Definition number (s : string) : Prop := digits s = true /\ s <> EmptyString.

Definition optional_length (s : string) : Prop :=
  s = EmptyString \/ exists d, digits d = true /\ s = String "," d.

(** A line of the form [@@ -oldStart[,oldLen] +newStart[,newLen] @@], with
    whatever follows the closing [@@] on the line. *)
Definition header_line (oldStart oldLen newStart newLen rest : string) : string :=
  "@@ -" ++ oldStart ++ oldLen ++ " +" ++ newStart ++ newLen ++ " @@" ++ rest.

(** A record whose content is a line of the kind its type names. *)
Definition well_tagged (r : change) : bool :=
  match type r with
  | addition => addition_line (content r)
  | deletion => deletion_line (content r)
  end.

(** A state whose line numbers are not negative. *)
Definition nonnegative (st : state) : Prop :=
  0 <= currentLine st /\ Forall (fun r => 0 <= line r) (changes st).

(** A state whose records are in the order of their line numbers, none
    beyond the cursor. *)
Definition ordered (st : state) : Prop :=
  Forall (fun r => line r <= currentLine st) (changes st) /\
  StronglySorted Z.le (map line (changes st)).

(** The decimal numeral of a number, as a diff tool writes it. *)
Definition decimal (n : nat) : string :=
  NilEmpty.string_of_uint (Nat.to_uint n).

(** A string that does not go on with a digit. *)
Definition no_digit_ahead (s : string) : bool :=
  match s with
  | String a _ => negb (JS.is_digit a)
  | EmptyString => true
  end.

(** The patch of the worked example. *)
Definition example_patch : string :=
  "@@ -1,3 +1,3 @@" ++ LF ++ " context" ++ LF ++ "-old line" ++ LF
  ++ "+new line" ++ LF.

(** ** JavaScript numbers

    [currentLine] is a JavaScript number: a double.  The numbers the
    function forms are integers that are not negative, and the infinity a
    very long run of digits reads as. *)

Module JSNumber.

Inductive t :=
| Finite (z : Z)
| Infinity.

(** The double nearest to an integer that is not negative, ties to the even
    significand: an integer below 2^53 is a double; above, [e] is the
    exponent that leaves a significand [q] of 53 bits, [r] is what the
    significand drops; from 2^1024 on the result is the infinity. *)
Definition round (z : Z) : t :=
  if z <? 2 ^ 53 then Finite z
  else
    let e := Z.log2 z - 52 in
    let q := z / 2 ^ e in
    let r := z mod 2 ^ e in
    let half := 2 ^ (e - 1) in
    let q' := if (half <? r) || ((r =? half) && Z.odd q) then q + 1 else q in
    if 2 ^ 1024 <=? q' * 2 ^ e then Infinity else Finite (q' * 2 ^ e).

(** [n++], as the value left in [n]: the double nearest to [n + 1]. *)
Definition succ (n : t) : t :=
  match n with
  | Finite z => round (z + 1)
  | Infinity => Infinity
  end.

(** [parseInt(s)] on a run of decimal digits: the double nearest to the
    integer the digits write (up to 20 digits by the letter of ECMAScript,
    and beyond as the engines that keep every digit compute it). *)
Definition parseInt (s : string) : t := round (JS.parse_digits 0 s).

End JSNumber.

(** ** The function on JavaScript numbers

    [loop_body], [scan] and [parsePatch] above compute the line numbers as
    exact integers; here are the same three with the numbers of the code.
    The two agree as long as the cursor stays below 2^53 (lemma
    [scan_exact] below). *)

Module Doubles.

Record change := { type : change_type; line : JSNumber.t; content : string }.

Record state := { currentLine : JSNumber.t; changes : list change }.

Definition initial : state :=
  {| currentLine := JSNumber.Finite 0; changes := [] |}.

(** The body of [for (const line of lines)], lines 223-244. *)
Definition loop_body (st : state) (line : string) : state :=
  if JS.startsWith line "@@" then
    match RegExp.hunk_header line with
    | Some m =>
        {| currentLine := JSNumber.parseInt (RegExp.group2 m);
           changes := changes st |}
    | None => st
    end
  else if JS.startsWith line "+" && negb (JS.startsWith line "+++") then
    {| currentLine := JSNumber.succ (currentLine st);
       changes :=
         JS.push (changes st)
           {| type := addition; line := currentLine st; content := line |} |}
  else if JS.startsWith line "-" && negb (JS.startsWith line "---") then
    {| currentLine := currentLine st;
       changes :=
         JS.push (changes st)
           {| type := deletion; line := currentLine st; content := line |} |}
  else if negb (JS.startsWith line "\") then
    {| currentLine := JSNumber.succ (currentLine st); changes := changes st |}
  else st.

Definition scan (lines : list string) (st : state) : state :=
  fold_left loop_body lines st.

(** [parsePatch], lines 217-248. *)
Definition parsePatch (patch : string) : list change :=
  let lines := JS.split patch newline in
  let st := scan lines initial in
  JS.slice (changes st) 0 10.

End Doubles.

(** A record and a state of the exact reading, as the code holds them when
    their numbers are doubles. *)
Definition as_double (r : change) : Doubles.change :=
  {| Doubles.type := type r;
     Doubles.line := JSNumber.Finite (line r);
     Doubles.content := content r |}.

Definition as_doubles (st : state) : Doubles.state :=
  {| Doubles.currentLine := JSNumber.Finite (currentLine st);
     Doubles.changes := map as_double (changes st) |}.

(** The cursor stays below 2^53 all along the loop. *)
Fixpoint in_range (lines : list string) (st : state) : Prop :=
  match lines with
  | [] => True
  | l :: ls =>
      currentLine (loop_body st l) < 2 ^ 53 /\ in_range ls (loop_body st l)
  end.

(** ** More of the page: the built-ins of the other helpers *)

Module JSString.

Fixpoint take (n : nat) (s : string) : string :=
  match n, s with
  | S n', String c s' => String c (take n' s')
  | _, _ => EmptyString
  end.

Fixpoint drop (n : nat) (s : string) : string :=
  match n, s with
  | S n', String _ s' => drop n' s'
  | _, _ => s
  end.

(** An index of [slice], counted from the end when negative and clamped to
    the length. *)
Definition relative (len i : Z) : Z :=
  if i <? 0 then Z.max (len + i) 0 else Z.min i len.

(** [s.slice(b, e)]; [e] is [None] when the call leaves it out. *)
Definition slice (s : string) (b : Z) (e : option Z) : string :=
  let len := Z.of_nat (String.length s) in
  let from := relative len b in
  let to := match e with Some e' => relative len e' | None => len end in
  take (Z.to_nat (Z.max (to - from) 0)) (drop (Z.to_nat from) s).

(** [s.replace(pat, rep)] for a pattern that is a string: the first
    occurrence only.  The replacements of the code (['']) hold no [$], so
    no replacement pattern is expanded. *)
Fixpoint replace (s pat rep : string) {struct s} : string :=
  if JS.startsWith s pat then rep ++ drop (String.length pat) s
  else
    match s with
    | EmptyString => EmptyString
    | String c s' => String c (replace s' pat rep)
    end.

(** [s.includes(pat)] *)
Fixpoint includes (s pat : string) {struct s} : bool :=
  JS.startsWith s pat ||
  match s with
  | EmptyString => false
  | String _ s' => includes s' pat
  end.

(** [String(n)] and [`${n}`] for a number that is an integer below 2^53 in
    absolute value: there the double is the integer and JavaScript writes
    all its digits (the exponent form starts at 1e21). *)
Definition of_number (n : Z) : string :=
  if n <? 0 then "-" ++ decimal (Z.to_nat (- n)) else decimal (Z.to_nat n).

End JSString.

Module JSArray.

(** [a.slice(b, e)], with relative indices as for strings. *)
Definition slice {A : Type} (a : list A) (b : Z) (e : option Z) : list A :=
  let len := Z.of_nat (List.length a) in
  let from := JSString.relative len b in
  let to := match e with Some e' => JSString.relative len e' | None => len end in
  firstn (Z.to_nat (Z.max (to - from) 0)) (skipn (Z.to_nat from) a).

(** [a.pop()], as the value it returns: the last element, [None] for the
    [undefined] of an empty array. *)
Fixpoint pop {A : Type} (a : list A) : option A :=
  match a with
  | [] => None
  | [x] => Some x
  | _ :: a' => pop a'
  end.

(** [a.join(sep)] for an array of strings. *)
Fixpoint join (a : list string) (sep : string) : string :=
  match a with
  | [] => EmptyString
  | [x] => x
  | x :: a' => x ++ sep ++ join a' sep
  end.

End JSArray.

(** ** More vocabulary for [parsePatch] *)

(** A line, not a header, after which [currentLine] is one more. *)
Definition advancing (l : string) : bool :=
  addition_line l ||
  (negb (deletion_line l) && negb (JS.startsWith l "\")).

Definition is_addition (r : change) : bool :=
  match type r with addition => true | deletion => false end.

(** The record the loop pushes for a qualifying line met at [n]. *)
Definition record_of (l : string) (n : Z) : change :=
  {| type := if addition_line l then addition else deletion;
     line := n; content := l |}.

(** A state whose additions are in strictly increasing order of line, all
    before the cursor. *)
Definition additions_ordered (st : state) : Prop :=
  Forall (fun n => n < currentLine st)
    (map line (filter is_addition (changes st))) /\
  StronglySorted Z.lt (map line (filter is_addition (changes st))).

(** ** [proposalDetails.tsx]: around [parsePatch] *)

Module ProposalDetails.

(** An identifier as the server sends it: [BranchActivity.user_id] is a
    [string | number], and a field may be missing.  A number is given by
    the integer it holds. *)
Inductive js_id :=
| IdUndefined
| IdString (s : string)
| IdNumber (n : Z).

(** The truth value of an identifier in a condition. *)
Definition truthy (i : js_id) : bool :=
  match i with
  | IdUndefined => false
  | IdString s => negb (String.eqb s "")
  | IdNumber n => negb (n =? 0)
  end.

(** A numeric identifier that a double holds exactly and [String] writes
    with all its digits. *)
Definition exact_id (i : js_id) : Prop :=
  match i with
  | IdNumber n => - 2 ^ 53 < n < 2 ^ 53
  | IdUndefined => True
  | IdString _ => True
  end.

(** [String(i)]; for a number, under [exact_id]. *)
Definition ToString (i : js_id) : string :=
  match i with
  | IdUndefined => "undefined"
  | IdString s => s
  | IdNumber n => JSString.of_number n
  end.

Record User := { id : js_id; username : string }.

Module Branch.
Record t := {
  id : string;
  branch_name : string;
  action : string;
  username : string;
  user_id : js_id;
  created_at : string
}.
End Branch.

(** The callback of [data.branches?.filter(...)], lines 120-140 and again
    lines 266-280; [currentUser] is [None] when it is [null]. *)
Definition isCurrentUserBranch (currentUser : option User) (branch : Branch.t)
  : bool :=
  match currentUser with
  | None => false
  | Some user =>
      if negb (truthy (Branch.user_id branch)) then false
      else if truthy (Branch.user_id branch) && truthy (id user)
              && String.eqb (ToString (Branch.user_id branch))
                            (ToString (id user))
      then true
      else String.eqb (Branch.username branch) (username user)
  end.

(** [x || ''] for a string that may be [undefined]. *)
Definition or_empty (s : option string) : string :=
  match s with
  | Some s' => s'
  | None => EmptyString
  end.

(** [proposal.repositoryLink.split('/').pop()?.replace('.git', '') || ''],
    lines 149 and 287. *)
Definition repoName (repositoryLink : string) : string :=
  or_empty
    (option_map (fun last => JSString.replace last ".git" "")
       (JSArray.pop (JS.split repositoryLink "/"))).

(** [proposal.repositoryLink.split('/').slice(-2).join('/')
      .replace('.git', '')], lines 153 and 291. *)
Definition originalRepo (repositoryLink : string) : string :=
  JSString.replace
    (JSArray.join (JSArray.slice (JS.split repositoryLink "/") (-2) None) "/")
    ".git" "".

Record BranchInfo := {
  branchName : string;
  forkOwner : string;
  bi_originalRepo : string;
  cloneUrl : string;
  forkUrl : string;
  branchUrl : string
}.

(** [newBranchInfo], lines 150-157 and 288-295. *)
Definition newBranchInfo (repositoryLink : string) (user : User)
    (mostRecentBranch : Branch.t) : BranchInfo :=
  {| branchName := Branch.branch_name mostRecentBranch;
     forkOwner := username user;
     bi_originalRepo := originalRepo repositoryLink;
     cloneUrl := "https://github.com/" ++ username user ++ "/"
                 ++ repoName repositoryLink ++ ".git";
     forkUrl := "https://github.com/" ++ username user ++ "/"
                ++ repoName repositoryLink;
     branchUrl := "https://github.com/" ++ username user ++ "/"
                  ++ repoName repositoryLink ++ "/tree/"
                  ++ Branch.branch_name mostRecentBranch |}.

(** An entry of [data.fileChanges]; GitHub leaves [patch] out for a file it
    does not diff. *)
Module GitHubFile.
Record t := {
  filename : string;
  additions : Z;
  deletions : Z;
  patch : option string
}.
End GitHubFile.

Module CodeChange.
Record t := {
  file : string;
  additions : Z;
  deletions : Z;
  changes : list change
}.
End CodeChange.

(** [data.fileChanges.map(...)], lines 201-206; a missing patch and an
    empty one are both falsy. *)
Definition formatChange (file : GitHubFile.t) : CodeChange.t :=
  {| CodeChange.file := GitHubFile.filename file;
     CodeChange.additions := GitHubFile.additions file;
     CodeChange.deletions := GitHubFile.deletions file;
     CodeChange.changes :=
       match GitHubFile.patch file with
       | Some (String c p) => parsePatch (String c p)
       | Some EmptyString => []
       | None => []
       end |}.

Definition formattedChanges (fileChanges : list GitHubFile.t)
  : list CodeChange.t :=
  map formatChange fileChanges.

(** [codeChanges.find(f => f.file === selectedFile)] *)
Definition findFile (codeChanges : list CodeChange.t) (selectedFile : string)
  : option CodeChange.t :=
  find (fun f => String.eqb (CodeChange.file f) selectedFile) codeChanges.

(** [n || 0] for a number that may be [undefined]. *)
Definition or_zero (n : option Z) : Z :=
  match n with
  | Some n' => n'
  | None => 0
  end.

(** [codeChanges.find(...)?.additions || 0] and the same for deletions,
    lines 625-626. *)
Definition shownAdditions (codeChanges : list CodeChange.t)
    (selectedFile : string) : Z :=
  or_zero (option_map CodeChange.additions (findFile codeChanges selectedFile)).

Definition shownDeletions (codeChanges : list CodeChange.t)
    (selectedFile : string) : Z :=
  or_zero (option_map CodeChange.deletions (findFile codeChanges selectedFile)).

(** [selectedFile && (<span>{...} additions, {...} deletions</span>)],
    lines 623-628: the two numbers shown, [None] when nothing is shown. *)
Definition shownCounts (codeChanges : list CodeChange.t)
    (selectedFile : option string) : option (Z * Z) :=
  match selectedFile with
  | Some (String c s) =>
      Some (shownAdditions codeChanges (String c s),
            shownDeletions codeChanges (String c s))
  | Some EmptyString => None
  | None => None
  end.

(** The gutter of a row of the code panel: text written in the page, or a
    sign followed by a number that React prints. *)
Inductive gutter :=
| Written (s : string)
| Signed (sign : string) (n : Z).

(** What the code panel shows, lines 633-718: the invitation to select a
    file, rows of gutter and text, or "No changes in this file". *)
Inductive panel :=
| SelectAFile
| Rows (rows : list (gutter * string))
| NoChangesInThisFile.

(** The no-break space [&nbsp;] and the quotation mark. *)
Definition nbsp : string := String "160" EmptyString.
Definition dq : string := String "034" EmptyString.

(** The 13 rows written in the page for [index.html], lines 638-692. *)
Definition index_html_rows : list (gutter * string) :=
  [ (Written "+1", "<!doctype html>");
    (Written "+2", "<html lang=" ++ dq ++ "en" ++ dq ++ ">");
    (Written "+3", nbsp ++ nbsp ++ "<head>");
    (Written "+4", nbsp ++ nbsp ++ nbsp ++ nbsp ++ "<meta charset=" ++ dq
                   ++ "UTF-8" ++ dq ++ " />");
    (Written "+5", nbsp ++ nbsp ++ nbsp ++ nbsp ++ "<link rel=" ++ dq
                   ++ "icon" ++ dq ++ " type=" ++ dq ++ "image/svg+xml" ++ dq
                   ++ " href=" ++ dq ++ "/vite.svg" ++ dq ++ " />");
    (Written "+6", nbsp ++ nbsp ++ nbsp ++ nbsp ++ "<meta name=" ++ dq
                   ++ "viewport" ++ dq ++ " content=" ++ dq
                   ++ "width=device-width, initial-scale=1.0" ++ dq ++ " />");
    (Written "+7", nbsp ++ nbsp ++ nbsp ++ nbsp
                   ++ "<title>Vite + React + TS</title>");
    (Written "+8", nbsp ++ nbsp ++ "</head>");
    (Written "+9", nbsp ++ nbsp ++ "<body>");
    (Written "+10", nbsp ++ nbsp ++ nbsp ++ nbsp ++ "<div id=" ++ dq
                    ++ "root" ++ dq ++ "></div>");
    (Written "+11", nbsp ++ nbsp ++ nbsp ++ nbsp ++ "<script type=" ++ dq
                    ++ "module" ++ dq ++ " src=" ++ dq ++ "/src/main.tsx"
                    ++ dq ++ "></script>");
    (Written "+12", nbsp ++ nbsp ++ "</body>");
    (Written "+13", "</html>") ].

(** The row of a change, lines 698-705. *)
Definition changeRow (c : change) : gutter * string :=
  (Signed (match type c with addition => "+" | deletion => "-" end) (line c),
   content c).

(** The code panel, lines 633-718: nothing selected, the sample of
    [index.html], or [codeChanges.find(...)?.changes.map(...) || fallback];
    an array is truthy even when empty. *)
Definition codePanel (codeChanges : list CodeChange.t)
    (selectedFile : option string) : panel :=
  match selectedFile with
  | Some (String c s) =>
      if String.eqb (String c s) "index.html" then Rows index_html_rows
      else
        match findFile codeChanges (String c s) with
        | Some f => Rows (map changeRow (CodeChange.changes f))
        | None => NoChangesInThisFile
        end
  | Some EmptyString => SelectAFile
  | None => SelectAFile
  end.

(** The address [fetchActivity] asks, line 105, and the one
    [refreshActivity] asks, line 255; [serverUrl] is
    [import.meta.env.VITE_SERVER_URL]. *)
Definition fetchActivityUrl (serverUrl proposalId : string) : string :=
  serverUrl ++ "api/proposals/" ++ proposalId ++ "/activity".

Definition refreshActivityUrl (serverUrl proposalId : string) : string :=
  serverUrl ++ "/api/proposals/" ++ proposalId ++ "/activity".

End ProposalDetails.

(** A repository link: whatever comes before, then owner and repository,
    with or without the [.git] ending. *)
Definition repository_link (base owner repo ending : string) : string :=
  base ++ "/" ++ owner ++ "/" ++ repo ++ ending.

(** ** [proposalOwner.tsx]: the collaborators of a proposal *)

Module ProposalOwner.

Module Branch.
Record t := {
  id : string;
  branch_name : string;
  action : string;
  username : string;
  user_id : string;
  created_at : string
}.
End Branch.

Module PullRequest.
Record t := {
  id : string;
  pr_number : Z;
  branch_name : string;
  action : string;
  username : string;
  user_id : string;
  created_at : string
}.
End PullRequest.

Record Collaborator := {
  username : string;
  user_id : string;
  github_login : string;
  avatar_url : string;
  wallet_address : option string;
  branches_count : Z;
  prs_count : Z;
  first_contribution : string;
  last_activity : string;
  merged_prs : Z;
  open_prs : Z;
  branches : list Branch.t;
  pull_requests : list PullRequest.t
}.

(** A [Map<string, Collaborator>]: the entries in the order of insertion. *)
Definition Map := list (string * Collaborator).

Definition has (m : Map) (key : string) : bool :=
  existsb (fun kv => String.eqb (fst kv) key) m.

Definition get (m : Map) (key : string) : option Collaborator :=
  option_map snd (find (fun kv => String.eqb (fst kv) key) m).

(** [m.set(key, v)]: a new key goes last, a key already there keeps its
    place. *)
Definition set (m : Map) (key : string) (v : Collaborator) : Map :=
  if has m key
  then map (fun kv => if String.eqb (fst kv) key then (fst kv, v) else kv) m
  else (m ++ [(key, v)])%list.

(** The assignments made through the object [m.get(key)!] returns: the
    entry of the key is changed where it stands. *)
Definition modify (m : Map) (key : string)
    (f : Collaborator -> Collaborator) : Map :=
  map (fun kv => if String.eqb (fst kv) key then (fst kv, f (snd kv)) else kv)
      m.

(** A [Set<string>], in the order of insertion, and [s.add(x)]. *)
Definition set_add (s : list string) (x : string) : list string :=
  if existsb (String.eqb x) s then s else (s ++ [x])%list.

(** [xs?.forEach]: nothing to visit when the array is missing. *)
Definition elements {A : Type} (xs : option (list A)) : list A :=
  match xs with
  | Some l => l
  | None => []
  end.

(** The entry made for a user met for the first time, lines 266-280 and
    302-316. *)
Definition fresh (name uid created : string) : Collaborator :=
  {| username := name;
     user_id := uid;
     github_login := name;
     avatar_url := "https://github.com/" ++ name ++ ".png";
     wallet_address := None;
     branches_count := 0;
     prs_count := 0;
     first_contribution := created;
     last_activity := created;
     merged_prs := 0;
     open_prs := 0;
     branches := [];
     pull_requests := [] |}.

Section Dates.

(** [new Date(s)] as the number it compares by: the time value, [None] for
    the [NaN] of a string that is no date. *)
Variable date : string -> option Z.

(** [new Date(a) < new Date(b)]; a comparison with [NaN] is false. *)
Definition date_lt (a b : string) : bool :=
  match date a, date b with
  | Some x, Some y => x <? y
  | _, _ => false
  end.

(** The update of the first and last activity, lines 288-293 and
    330-335. *)
Definition touch (created : string) (c : Collaborator) : Collaborator :=
  {| username := username c;
     user_id := user_id c;
     github_login := github_login c;
     avatar_url := avatar_url c;
     wallet_address := wallet_address c;
     branches_count := branches_count c;
     prs_count := prs_count c;
     first_contribution :=
       if date_lt created (first_contribution c) then created
       else first_contribution c;
     last_activity :=
       if date_lt (last_activity c) created then created
       else last_activity c;
     merged_prs := merged_prs c;
     open_prs := open_prs c;
     branches := branches c;
     pull_requests := pull_requests c |}.

(** What the first loop does to the entry of the user, lines 283-293. *)
Definition record_branch (b : Branch.t) (c : Collaborator) : Collaborator :=
  touch (Branch.created_at b)
    {| username := username c;
       user_id := user_id c;
       github_login := github_login c;
       avatar_url := avatar_url c;
       wallet_address := wallet_address c;
       branches_count := branches_count c + 1;
       prs_count := prs_count c;
       first_contribution := first_contribution c;
       last_activity := last_activity c;
       merged_prs := merged_prs c;
       open_prs := open_prs c;
       branches := JS.push (branches c) b;
       pull_requests := pull_requests c |}.

(** What the second loop does to the entry of the user, lines 319-335. *)
Definition record_pr (p : PullRequest.t) (c : Collaborator) : Collaborator :=
  touch (PullRequest.created_at p)
    {| username := username c;
       user_id := user_id c;
       github_login := github_login c;
       avatar_url := avatar_url c;
       wallet_address := wallet_address c;
       branches_count := branches_count c;
       prs_count := prs_count c + 1;
       first_contribution := first_contribution c;
       last_activity := last_activity c;
       merged_prs :=
         if String.eqb (PullRequest.action p) "merged"
         then merged_prs c + 1 else merged_prs c;
       open_prs :=
         if String.eqb (PullRequest.action p) "merged" then open_prs c
         else if String.eqb (PullRequest.action p) "created"
         then open_prs c + 1 else open_prs c;
       branches := branches c;
       pull_requests := JS.push (pull_requests c) p |}.

(** The callback of [activityData.branches?.forEach], lines 261-294. *)
Definition add_branch (m : Map) (b : Branch.t) : Map :=
  let key := Branch.user_id b in
  let m1 :=
    if negb (has m key)
    then set m key
           (fresh (Branch.username b) (Branch.user_id b) (Branch.created_at b))
    else m in
  modify m1 key (record_branch b).

(** The callback of [activityData.pullRequests?.forEach], lines 297-336. *)
Definition add_pr (m : Map) (p : PullRequest.t) : Map :=
  let key := PullRequest.user_id p in
  let m1 :=
    if negb (has m key)
    then set m key
           (fresh (PullRequest.username p) (PullRequest.user_id p)
              (PullRequest.created_at p))
    else m in
  modify m1 key (record_pr p).

(** [collaboratorMap] when both loops are over, line 337. *)
Definition collaboratorMap (bs : option (list Branch.t))
    (prs : option (list PullRequest.t)) : Map :=
  fold_left add_pr (elements prs) (fold_left add_branch (elements bs) []).

End Dates.

(** [userIds] when both loops are over, as [Array.from(userIds)] lists
    it. *)
Definition userIds (bs : option (list Branch.t))
    (prs : option (list PullRequest.t)) : list string :=
  fold_left set_add (map PullRequest.user_id (elements prs))
    (fold_left set_add (map Branch.user_id (elements bs)) []).

(** The entries of one user among the branches and the pull requests. *)
Definition branches_of (uid : string) (bs : list Branch.t) : list Branch.t :=
  filter (fun b => String.eqb (Branch.user_id b) uid) bs.

Definition prs_of (uid : string) (prs : list PullRequest.t)
  : list PullRequest.t :=
  filter (fun p => String.eqb (PullRequest.user_id p) uid) prs.

Definition with_action (a : string) (prs : list PullRequest.t)
  : list PullRequest.t :=
  filter (fun p => String.eqb (PullRequest.action p) a) prs.

(** The sum of a count over the entries of a map. *)
Definition total (f : Collaborator -> Z) (m : Map) : Z :=
  fold_right (fun kv acc => f (snd kv) + acc) 0 m.

(** Both callbacks have one shape: make the entry when the key is new, then
    change the entry of the key. *)
Definition upsert (m : Map) (key : string) (init : Collaborator)
    (f : Collaborator -> Collaborator) : Map :=
  modify (if negb (has m key) then set m key init else m) key f.

(** One entry after the branches, and after the pull requests, of its
    user. *)
Definition after_branches (date : string -> option Z) (c : Collaborator)
    (bs : list Branch.t) : Collaborator :=
  fold_left (fun c b => record_branch date b c) bs c.

Definition after_prs (date : string -> option Z) (c : Collaborator)
    (prs : list PullRequest.t) : Collaborator :=
  fold_left (fun c p => record_pr date p c) prs c.

(** Two dates in order, both being dates. *)
Definition date_le (date : string -> option Z) (a b : string) : Prop :=
  match date a, date b with
  | Some x, Some y => x <= y
  | _, _ => False
  end.

(** The creation dates of the activity of one user. *)
Definition dates_of (uid : string) (bs : list Branch.t)
    (prs : list PullRequest.t) : list string :=
  (map Branch.created_at (branches_of uid bs) ++
   map PullRequest.created_at (prs_of uid prs))%list.

(** The user name on the first activity of one user: the first branch, or
    the first pull request when the user has no branch. *)
Definition first_username (uid : string) (bs : list Branch.t)
    (prs : list PullRequest.t) : option string :=
  match branches_of uid bs, prs_of uid prs with
  | b :: _, _ => Some (Branch.username b)
  | [], p :: _ => Some (PullRequest.username p)
  | [], [] => None
  end.

(** An entry whose first contribution and last activity are among given
    dates and bound them all. *)
Definition bounds (date : string -> option Z) (c : Collaborator)
    (ds : list string) : Prop :=
  In (first_contribution c) ds /\ In (last_activity c) ds /\
  forall d, In d ds ->
    date_le date (first_contribution c) d /\
    date_le date d (last_activity c).

(** Three days of January 2025 as [Date] reads them; anything else is no
    date here. *)
Definition january (s : string) : option Z :=
  if String.eqb s "2025-01-01T00:00:00Z" then Some 1735689600000
  else if String.eqb s "2025-01-02T00:00:00Z" then Some 1735776000000
  else if String.eqb s "2025-01-03T00:00:00Z" then Some 1735862400000
  else None.

(** An activity of two users: ada with two branches and a merged pull
    request, bob with one open pull request. *)
Definition example_branches : list Branch.t :=
  [ {| Branch.id := "1"; Branch.branch_name := "fix-a";
       Branch.action := "created"; Branch.username := "ada";
       Branch.user_id := "u1";
       Branch.created_at := "2025-01-02T00:00:00Z" |};
    {| Branch.id := "2"; Branch.branch_name := "fix-b";
       Branch.action := "created"; Branch.username := "ada-l";
       Branch.user_id := "u1";
       Branch.created_at := "2025-01-01T00:00:00Z" |} ].

Definition example_prs : list PullRequest.t :=
  [ {| PullRequest.id := "3"; PullRequest.pr_number := 7;
       PullRequest.branch_name := "fix-a"; PullRequest.action := "merged";
       PullRequest.username := "ada"; PullRequest.user_id := "u1";
       PullRequest.created_at := "2025-01-03T00:00:00Z" |};
    {| PullRequest.id := "4"; PullRequest.pr_number := 8;
       PullRequest.branch_name := "feat"; PullRequest.action := "created";
       PullRequest.username := "bob"; PullRequest.user_id := "u2";
       PullRequest.created_at := "2025-01-02T00:00:00Z" |} ].

End ProposalOwner.

(** ** [App.tsx]: the page of an event *)

Module EventDetail.

(** A number that may be [NaN]: [None]. *)
Definition num := option Z.

Definition sub (a b : num) : num :=
  match a, b with
  | Some x, Some y => Some (x - y)
  | _, _ => None
  end.

(** [a <= 0] and [a > 0]; false on [NaN]. *)
Definition le0 (a : num) : bool :=
  match a with
  | Some x => x <=? 0
  | None => false
  end.

Definition gt0 (a : num) : bool :=
  match a with
  | Some x => 0 <? x
  | None => false
  end.

(** [Math.floor(a / b)] for a constant [b] that is positive, and [a % b],
    which has the sign of [a]. *)
Definition floor_div (a : num) (b : Z) : num := option_map (fun x => x / b) a.

Definition rem (a : num) (b : Z) : num := option_map (fun x => Z.rem x b) a.

(** [`${a}`] *)
Definition show (a : num) : string :=
  match a with
  | Some x => JSString.of_number x
  | None => "NaN"
  end.

Definition MINUTE : Z := 1000 * 60.
Definition HOUR : Z := 1000 * 60 * 60.
Definition DAY : Z := 1000 * 60 * 60 * 24.

(** [formatTimeRemaining], lines 772-790 (and the same function in the
    list of events); [getTime] is [new Date(s).getTime()], [now] is
    [new Date().getTime()]. *)
Definition formatTimeRemaining (getTime : string -> num) (now : Z)
    (endDate : string) : string :=
  let diff := sub (getTime endDate) (Some now) in
  if le0 diff then "Expired"
  else
    let days := floor_div diff DAY in
    let hours := floor_div (rem diff DAY) HOUR in
    if gt0 days then show days ++ "d " ++ show hours ++ "h remaining"
    else if gt0 hours then show hours ++ "h remaining"
    else
      let minutes := floor_div (rem diff HOUR) MINUTE in
      show minutes ++ "m remaining".

(** The command copied for a fork, line 950; a template writes
    [undefined] as the word. *)
Definition cloneCommand (githubForkUrl branchName : string) : string :=
  "git clone " ++ githubForkUrl ++ ".git && cd "
  ++ match JSArray.pop (JS.split githubForkUrl "/") with
     | Some directory => directory
     | None => "undefined"
     end
  ++ " && git checkout " ++ branchName.

(** The label of an activity, line 1124. *)
Definition activityLabel (activityType : string) : string :=
  JSString.replace activityType "_" " ".

End EventDetail.

(** ** [navbar.tsx] and [profile.tsx] *)

Module Navbar.

(** The text of the wallet button, [navbar.tsx] lines 30-33: the first six
    and the last four code units of the address, or an invitation when
    there is no address or an empty one. *)
Definition walletLabel (walletAddress : option string) : string :=
  match walletAddress with
  | Some (String c s) =>
      JSString.slice (String c s) 0 (Some 6) ++ "..."
      ++ JSString.slice (String c s) (-4) None
  | Some EmptyString => "Connect Wallet"
  | None => "Connect Wallet"
  end.

End Navbar.

Module Profile.

(** The wallet of the profile header, [profile.tsx] lines 228-233: the same
    abbreviation, and nothing at all ([None]) without an address. *)
Definition walletText (walletAddress : option string) : option string :=
  match walletAddress with
  | Some (String c s) =>
      Some (JSString.slice (String c s) 0 (Some 6) ++ "..."
            ++ JSString.slice (String c s) (-4) None)
  | Some EmptyString => None
  | None => None
  end.

(** The counts of [fetchUserProposals], lines 114-116, from the statuses of
    the proposals. *)
Definition totalProposals (statuses : list string) : nat :=
  List.length statuses.

Definition activeProposals (statuses : list string) : nat :=
  List.length
    (filter (fun s => String.eqb s "pending" || String.eqb s "approved")
       statuses).

Definition completedProposals (statuses : list string) : nat :=
  List.length (filter (fun s => String.eqb s "completed") statuses).

End Profile.

(** ** Facts about the built-ins *)

Lemma startsWith_cons s c p :
  JS.startsWith s (String c p) = true ->
  exists s', s = String c s' /\ JS.startsWith s' p = true.
Proof.
  destruct s as [|a s']; simpl; [discriminate|].
  intros H. apply andb_true_iff in H as [Ha Hp].
  apply Ascii.eqb_eq in Ha. subst a. now exists s'.
Qed.

Lemma startsWith_append p s : JS.startsWith (p ++ s) p = true.
Proof.
  induction p as [|c p IH]; simpl; [reflexivity|].
  now rewrite Ascii.eqb_refl, IH.
Qed.

Lemma startsWith_first s c d p q :
  c <> d -> JS.startsWith s (String c p) = true ->
  JS.startsWith s (String d q) = false.
Proof.
  intros Hcd H. apply startsWith_cons in H as (s' & -> & _). simpl.
  destruct (Ascii.eqb c d) eqn:E; [|reflexivity].
  apply Ascii.eqb_eq in E. contradiction.
Qed.

Lemma header_not_qualifying l :
  JS.startsWith l "@@" = true -> qualifying l = false.
Proof.
  intros H. unfold qualifying, addition_line, deletion_line.
  rewrite (startsWith_first l "@" "+" "@" "") by (discriminate || assumption).
  rewrite (startsWith_first l "@" "-" "@" "") by (discriminate || assumption).
  reflexivity.
Qed.

Lemma slice_0 {A} (a : list A) n : JS.slice a 0 n = firstn n a.
Proof. unfold JS.slice. now rewrite Nat.sub_0_r. Qed.

Lemma digit_value_nonneg c : JS.is_digit c = true -> 0 <= JS.digit_value c <= 9.
Proof.
  unfold JS.is_digit, JS.digit_value. cbv zeta. intros H.
  apply andb_true_iff in H as [H1 H2].
  apply N.leb_le in H1. apply N.leb_le in H2. lia.
Qed.

Lemma parse_digits_nonneg s : forall acc, 0 <= acc -> 0 <= JS.parse_digits acc s.
Proof.
  induction s as [|c s IH]; cbn [JS.parse_digits]; intros acc Hacc;
    [assumption|].
  destruct (JS.is_digit c) eqn:E; [|assumption].
  apply IH. pose proof (digit_value_nonneg c E). lia.
Qed.

Lemma parseInt_nonneg s : 0 <= JS.parseInt s.
Proof. apply parse_digits_nonneg. lia. Qed.

(** ** The loop body, case by case *)

Lemma loop_body_case st l : body_case st l (loop_body st l).
Proof.
  unfold loop_body.
  destruct (JS.startsWith l "@@") eqn:Hh.
  - destruct (RegExp.hunk_header l) eqn:Hm; now constructor.
  - fold (addition_line l). fold (deletion_line l).
    destruct (addition_line l) eqn:Ha; [now constructor|].
    destruct (deletion_line l) eqn:Hd; [now constructor|].
    assert (Hq : qualifying l = false) by (unfold qualifying; now rewrite Ha, Hd).
    destruct (JS.startsWith l "\") eqn:Hb; simpl; now constructor.
Qed.

(** ** The loop *)

Lemma scan_app a b st : scan (a ++ b) st = scan b (scan a st).
Proof. apply fold_left_app. Qed.

Lemma scan_cons l ls st : scan (l :: ls) st = scan ls (loop_body st l).
Proof. reflexivity. Qed.

(** The invariant rule of the loop: what holds of the state before the loop
    and is kept by the body on every line holds after it. *)
Lemma scan_invariant (I : state -> Prop) (lines : list string) :
  (forall st l, In l lines -> I st -> I (loop_body st l)) ->
  forall st, I st -> I (scan lines st).
Proof.
  induction lines as [|l ls IH]; intros Hbody st Hst; [exact Hst|].
  rewrite scan_cons. apply IH.
  - intros st' l' Hin. apply Hbody. now right.
  - apply Hbody; [now left | exact Hst].
Qed.

(** The contents pushed by the body on one line. *)
Lemma loop_body_contents st l :
  map content (changes (loop_body st l)) =
  (map content (changes st) ++ (if qualifying l then [l] else []))%list.
Proof.
  destruct (loop_body_case st l) as [m Hh _|Hh _|Hh Ha|Hh Ha Hd|Hh Hq _|Hh Hq _];
    cbn [changes].
  - rewrite (header_not_qualifying l Hh). now rewrite app_nil_r.
  - rewrite (header_not_qualifying l Hh). now rewrite app_nil_r.
  - unfold qualifying. rewrite Ha. simpl. now rewrite map_app.
  - unfold qualifying. rewrite Ha, Hd. simpl. now rewrite map_app.
  - rewrite Hq. now rewrite app_nil_r.
  - rewrite Hq. now rewrite app_nil_r.
Qed.

(** The contents of the records are the qualifying lines, in order. *)
Lemma scan_contents lines : forall st,
  map content (changes (scan lines st)) =
  (map content (changes st) ++ filter qualifying lines)%list.
Proof.
  induction lines as [|l ls IH]; intros st; simpl.
  - now rewrite app_nil_r.
  - fold (scan ls (loop_body st l)). rewrite IH, loop_body_contents.
    rewrite <- app_assoc. f_equal. now destruct (qualifying l).
Qed.

Lemma emitted_contents patch :
  map content (emitted patch) = filter qualifying (JS.split patch newline).
Proof. unfold emitted. now rewrite scan_contents. Qed.

Lemma parsePatch_emitted patch : parsePatch patch = firstn 10 (emitted patch).
Proof. unfold parsePatch, emitted. apply slice_0. Qed.

(** ** The matcher of the hunk pattern *)

Section MatcherFacts.
Context {R : Type}.
Implicit Types (k : @RegExp.matcher R) (kd : string -> @RegExp.matcher R).

Lemma lit_append w k s : RegExp.lit w k (w ++ s) = k s.
Proof.
  induction w as [|c w IH]; simpl; [reflexivity|].
  now rewrite Ascii.eqb_refl.
Qed.

Lemma lit_inv w k s r :
  RegExp.lit w k s = Some r -> exists s', s = w ++ s' /\ k s' = Some r.
Proof.
  revert s. induction w as [|c w IH]; simpl; intros s H.
  - now exists s.
  - destruct s as [|a s]; simpl in H; [discriminate|].
    destruct (Ascii.eqb a c) eqn:E; [|discriminate].
    apply Ascii.eqb_eq in E. subst a.
    destruct (IH _ H) as (s' & -> & Hk). now exists s'.
Qed.

Lemma opt_take c k s r :
  k s = Some r -> RegExp.opt c k (String c s) = Some r.
Proof.
  intros H. unfold RegExp.opt, RegExp.chr.
  now rewrite Ascii.eqb_refl, H.
Qed.

Lemma opt_skip c k s :
  JS.startsWith s (String c EmptyString) = false -> RegExp.opt c k s = k s.
Proof.
  intros H. unfold RegExp.opt, RegExp.chr.
  destruct s as [|a s]; [reflexivity|]. simpl in H.
  rewrite andb_true_r in H. now rewrite H.
Qed.

Lemma opt_inv c k s r :
  RegExp.opt c k s = Some r ->
  (exists s', s = String c s' /\ k s' = Some r) \/ k s = Some r.
Proof.
  unfold RegExp.opt, RegExp.chr. intros H.
  destruct s as [|a s]; [now right|].
  destruct (Ascii.eqb a c) eqn:E; [|now right].
  apply Ascii.eqb_eq in E. subst a.
  destruct (k s) as [r'|] eqn:Hk; [|now right].
  left. exists s. split; congruence.
Qed.

(** The greedy alternative comes first: when the digits are followed by
    something that is not a digit and the continuation accepts them all,
    that is the match. *)
Lemma digit_star_greedy ds : forall kd rest r,
  digits ds = true -> no_digit_ahead rest = true ->
  kd ds rest = Some r -> RegExp.digit_star kd (ds ++ rest) = Some r.
Proof.
  induction ds as [|c ds IH]; intros kd rest r Hds Hrest Hk.
  - destruct rest as [|a rest]; simpl in *; [exact Hk|].
    apply negb_true_iff in Hrest. now rewrite Hrest.
  - simpl in Hds. apply andb_true_iff in Hds as [Hc Hds].
    cbn [append RegExp.digit_star]. rewrite Hc.
    now rewrite (IH (fun d => kd (String c d)) rest r).
Qed.

Lemma digit_plus_greedy ds kd rest r :
  number ds -> no_digit_ahead rest = true ->
  kd ds rest = Some r -> RegExp.digit_plus kd (ds ++ rest) = Some r.
Proof.
  intros [Hds Hne] Hrest Hk. destruct ds as [|c ds]; [contradiction|].
  simpl in Hds. apply andb_true_iff in Hds as [Hc Hds].
  cbn [append RegExp.digit_plus]. rewrite Hc.
  now apply (digit_star_greedy ds (fun d => kd (String c d))).
Qed.

Lemma digit_star_inv s : forall kd r,
  RegExp.digit_star kd s = Some r ->
  exists ds rest, digits ds = true /\ s = ds ++ rest /\ kd ds rest = Some r.
Proof.
  induction s as [|a s IH]; intros kd r H; cbn [RegExp.digit_star] in H.
  - now exists EmptyString, EmptyString.
  - destruct (JS.is_digit a) eqn:Ha.
    + destruct (RegExp.digit_star (fun d => kd (String a d)) s) as [r'|] eqn:E.
      * injection H as <-. apply IH in E as (ds & rest & Hds & -> & Hk).
        exists (String a ds), rest. simpl. now rewrite Ha, Hds.
      * now exists EmptyString, (String a s).
    + now exists EmptyString, (String a s).
Qed.

Lemma digit_plus_inv s kd r :
  RegExp.digit_plus kd s = Some r ->
  exists ds rest, number ds /\ s = ds ++ rest /\ kd ds rest = Some r.
Proof.
  unfold RegExp.digit_plus. destruct s as [|a s]; [discriminate|].
  destruct (JS.is_digit a) eqn:Ha; [|discriminate]. intros H.
  apply digit_star_inv in H as (ds & rest & Hds & -> & Hk).
  exists (String a ds), rest. repeat split; [|discriminate|assumption].
  simpl. now rewrite Ha, Hds.
Qed.

Lemma search_here k s r : k s = Some r -> RegExp.search k s = Some r.
Proof. intros H. destruct s; simpl; now rewrite H. Qed.

Lemma search_inv k s r :
  RegExp.search k s = Some r ->
  exists before from, s = before ++ from /\ k from = Some r.
Proof.
  induction s as [|a s IH]; cbn [RegExp.search]; intros H.
  - destruct (k EmptyString) eqn:E; [|discriminate].
    exists EmptyString, EmptyString. split; [reflexivity|congruence].
  - destruct (k (String a s)) eqn:E.
    + exists EmptyString, (String a s). split; [reflexivity|congruence].
    + destruct (IH H) as (before & from & -> & Hk).
      now exists (String a before), from.
Qed.

(** [,?\d*] on an optional length. *)
Lemma optional_length_greedy len k rest r :
  optional_length len -> JS.startsWith rest " " = true ->
  k rest = Some r ->
  RegExp.opt "," (RegExp.digit_star (fun _ => k)) (len ++ rest) = Some r.
Proof.
  intros Hlen Hrest Hk.
  assert (Hnd : no_digit_ahead rest = true).
  { apply startsWith_cons in Hrest as (s' & -> & _). reflexivity. }
  destruct Hlen as [->|(d & Hd & ->)].
  - rewrite opt_skip
      by (now apply (startsWith_first rest " " "," "" "")).
    now apply (digit_star_greedy EmptyString).
  - cbn [append]. apply opt_take. now apply digit_star_greedy.
Qed.

End MatcherFacts.

Lemma no_digit_ahead_length len rest :
  optional_length len -> JS.startsWith rest " " = true ->
  no_digit_ahead (len ++ rest) = true.
Proof.
  intros [->|(d & _ & ->)] Hrest; [|reflexivity].
  apply startsWith_cons in Hrest as (s' & -> & _). reflexivity.
Qed.

(** The pattern matches a header line where the line starts, and its second
    group is the new start. *)
Lemma hunk_header_complete oldStart oldLen newStart newLen rest :
  number oldStart -> optional_length oldLen ->
  number newStart -> optional_length newLen ->
  RegExp.hunk_header (header_line oldStart oldLen newStart newLen rest) =
  Some {| RegExp.group1 := oldStart; RegExp.group2 := newStart |}.
Proof.
  intros Ha Hb Hc Hd. apply search_here.
  unfold RegExp.hunk_header_at, header_line.
  rewrite lit_append.
  apply digit_plus_greedy; [assumption|now apply no_digit_ahead_length|].
  apply optional_length_greedy; [assumption|reflexivity|].
  rewrite lit_append.
  apply digit_plus_greedy; [assumption|now apply no_digit_ahead_length|].
  apply optional_length_greedy; [assumption|reflexivity|].
  now rewrite lit_append.
Qed.

(** Conversely, in every match both groups are runs of one or more
    digits: these are the only strings [parseInt] is applied to. *)
Lemma hunk_header_groups l m :
  RegExp.hunk_header l = Some m ->
  number (RegExp.group1 m) /\ number (RegExp.group2 m).
Proof.
  intros H. apply search_inv in H as (before & from & -> & H).
  unfold RegExp.hunk_header_at in H.
  apply lit_inv in H as (s1 & -> & H).
  apply digit_plus_inv in H as (g1 & s2 & Hg1 & -> & H).
  apply opt_inv in H as [(s3 & -> & H)|H];
    apply digit_star_inv in H as (d1 & s4 & _ & -> & H);
    apply lit_inv in H as (s5 & -> & H);
    apply digit_plus_inv in H as (g2 & s6 & Hg2 & -> & H);
    apply opt_inv in H as [(s7 & -> & H)|H];
    apply digit_star_inv in H as (d2 & s8 & _ & -> & H);
    apply lit_inv in H as (s9 & -> & H);
    injection H as <-; now split.
Qed.

(** ** Numerals *)

Lemma parse_digits_uint d : forall acc : nat,
  JS.parse_digits (Z.of_nat acc) (NilEmpty.string_of_uint d) =
  Z.of_nat (Nat.of_uint_acc d acc).
Proof.
  induction d; intros acc; cbn [NilEmpty.string_of_uint Nat.of_uint_acc];
    [reflexivity|..];
    cbn [JS.parse_digits];
    match goal with
    | |- (if JS.is_digit ?c then _ else _) = _ =>
        change (JS.is_digit c) with true;
        let v := eval vm_compute in (JS.digit_value c) in
        change (JS.digit_value c) with v
    end;
    cbv iota; rewrite <- IHd; f_equal; rewrite Nat.tail_mul_spec; lia.
Qed.

Lemma parseInt_decimal n : JS.parseInt (decimal n) = Z.of_nat n.
Proof.
  unfold JS.parseInt, decimal.
  change 0 with (Z.of_nat 0) at 1.
  rewrite (parse_digits_uint (Nat.to_uint n) 0).
  change (Nat.of_uint_acc (Nat.to_uint n) 0) with (Nat.of_uint (Nat.to_uint n)).
  now rewrite Unsigned.of_to.
Qed.

Lemma digits_uint d : digits (NilEmpty.string_of_uint d) = true.
Proof. induction d; simpl; [reflexivity|..]; exact IHd. Qed.

Lemma number_decimal n : number (decimal n).
Proof.
  split; [apply digits_uint|]. unfold decimal. intros H.
  assert (Hnil : Nat.to_uint n = Decimal.Nil)
    by (destruct (Nat.to_uint n); (reflexivity || discriminate)).
  pose proof (Unsigned.of_to n) as Hn. rewrite Hnil in Hn.
  cbn in Hn. subst n. discriminate.
Qed.

(** ** Lists *)

Lemma In_firstn {A} (x : A) n : forall l, In x (firstn n l) -> In x l.
Proof.
  induction n as [|n IH]; intros [|y l]; simpl; try contradiction.
  intros [->|H]; [now left|right; now apply IH].
Qed.

Lemma Forall_firstn {A} (P : A -> Prop) n l :
  Forall P l -> Forall P (firstn n l).
Proof.
  rewrite !Forall_forall. intros H x Hx. apply H. now apply In_firstn in Hx.
Qed.

Lemma StronglySorted_snoc {A} (R : A -> A -> Prop) l x :
  StronglySorted R l -> Forall (fun y => R y x) l ->
  StronglySorted R (l ++ [x]).
Proof.
  induction 1 as [|y l Hl IH Hy]; intros Hx; simpl.
  - constructor; constructor.
  - inversion Hx; subst. constructor; [now apply IH|].
    apply Forall_app. split; [assumption|now constructor].
Qed.

Lemma StronglySorted_firstn {A} (R : A -> A -> Prop) n : forall l,
  StronglySorted R l -> StronglySorted R (firstn n l).
Proof.
  induction n as [|n IH]; intros l Hl; [constructor|].
  destruct Hl as [|y l Hl Hy]; simpl; constructor;
    [now apply IH|now apply Forall_firstn].
Qed.

(** ** Invariants of the loop *)

Lemma qualifying_not_file_header l :
  qualifying l = true ->
  JS.startsWith l "+++" = false /\ JS.startsWith l "---" = false.
Proof.
  unfold qualifying, addition_line, deletion_line. intros H.
  apply orb_true_iff in H as [H|H]; apply andb_true_iff in H as [H1 H2];
    apply negb_true_iff in H2; split; try assumption.
  - now apply (startsWith_first l "+" "-" "" "--").
  - now apply (startsWith_first l "-" "+" "" "++").
Qed.

Lemma loop_body_well_tagged st l :
  Forall (fun r => well_tagged r = true) (changes st) ->
  Forall (fun r => well_tagged r = true) (changes (loop_body st l)).
Proof.
  intros H.
  destruct (loop_body_case st l) as [m _ _| | _ Ha| _ _ Hd| |]; cbn [changes];
    try assumption; apply Forall_app; (split; [assumption|]);
    constructor; [|constructor| |constructor]; assumption.
Qed.

Lemma loop_body_nonnegative st l : nonnegative st -> nonnegative (loop_body st l).
Proof.
  intros [Hc Hr]. unfold nonnegative.
  destruct (loop_body_case st l) as [m _ _| | | | |];
    cbn [changes currentLine]; try (split; [lia || assumption|]);
    try assumption; try (now split);
    try (apply Forall_app; split; [assumption|]; constructor;
         [exact Hc|constructor]).
  split; [apply parseInt_nonneg|assumption].
Qed.

Lemma loop_body_ordered st l :
  JS.startsWith l "@@" = false -> ordered st -> ordered (loop_body st l).
Proof.
  intros Hl [Hc Hs]. unfold ordered.
  assert (Hup : Forall (fun r => line r <= currentLine st + 1) (changes st)).
  { eapply Forall_impl; [|exact Hc]. cbn beta. intros r Hr. lia. }
  assert (Hle : Forall (fun y => y <= currentLine st) (map line (changes st))).
  { apply Forall_map. exact Hc. }
  destruct (loop_body_case st l) as [m Hh _|Hh _| | | |];
    try congruence; cbn [changes currentLine].
  - split.
    + apply Forall_app. split; [exact Hup|]. constructor; [cbn; lia|constructor].
    + rewrite map_app. now apply StronglySorted_snoc.
  - split.
    + apply Forall_app. split; [exact Hc|]. constructor; [cbn; lia|constructor].
    + rewrite map_app. now apply StronglySorted_snoc.
  - now split.
  - now split.
Qed.

Lemma scan_well_tagged patch :
  Forall (fun r => well_tagged r = true) (emitted patch).
Proof.
  unfold emitted.
  apply (scan_invariant
           (fun st => Forall (fun r => well_tagged r = true) (changes st))).
  - intros st l _. apply loop_body_well_tagged.
  - constructor.
Qed.

Lemma scan_nonnegative lines : nonnegative (scan lines initial).
Proof.
  apply (scan_invariant nonnegative).
  - intros st l _. apply loop_body_nonnegative.
  - split; [cbn; lia|constructor].
Qed.

(** ** JavaScript numbers *)

Lemma round_exact z : z < 2 ^ 53 -> JSNumber.round z = JSNumber.Finite z.
Proof.
  intros H. unfold JSNumber.round.
  destruct (z <? 2 ^ 53) eqn:E; [reflexivity|].
  apply Z.ltb_ge in E. lia.
Qed.

(** [++] adds one below 2^53, and at 2^53 it adds nothing. *)
Lemma succ_exact z :
  z < 2 ^ 53 -> JSNumber.succ (JSNumber.Finite z) = JSNumber.Finite (z + 1).
Proof.
  intros H. cbn [JSNumber.succ].
  destruct (Z.eq_dec (z + 1) (2 ^ 53)) as [E|E].
  - rewrite E. vm_compute. reflexivity.
  - apply round_exact. lia.
Qed.

Lemma succ_stalls :
  JSNumber.succ (JSNumber.Finite (2 ^ 53)) = JSNumber.Finite (2 ^ 53).
Proof. vm_compute. reflexivity. Qed.

Lemma parseInt_exact s :
  JS.parseInt s < 2 ^ 53 ->
  JSNumber.parseInt s = JSNumber.Finite (JS.parseInt s).
Proof. intros H. now apply round_exact. Qed.

(** ** The loop body on doubles *)

Lemma doubles_scan_app a b st :
  Doubles.scan (a ++ b) st = Doubles.scan b (Doubles.scan a st).
Proof. apply fold_left_app. Qed.

Lemma doubles_scan_cons l ls st :
  Doubles.scan (l :: ls) st = Doubles.scan ls (Doubles.loop_body st l).
Proof. reflexivity. Qed.

Lemma doubles_header st oldStart oldLen newStart newLen rest :
  number oldStart -> optional_length oldLen ->
  number newStart -> optional_length newLen ->
  Doubles.loop_body st (header_line oldStart oldLen newStart newLen rest) =
  {| Doubles.currentLine := JSNumber.parseInt newStart;
     Doubles.changes := Doubles.changes st |}.
Proof.
  intros Ha Hb Hc Hd. unfold Doubles.loop_body.
  rewrite (hunk_header_complete _ _ _ _ rest Ha Hb Hc Hd).
  unfold header_line at 1.
  change ("@@ -" ++ oldStart ++ oldLen ++ " +" ++ newStart ++ newLen
          ++ " @@" ++ rest)
    with ("@@" ++ (" -" ++ oldStart ++ oldLen ++ " +" ++ newStart ++ newLen
          ++ " @@" ++ rest)).
  now rewrite startsWith_append.
Qed.

(** ** The properties of [parsePatch] *)

(** C1, as stated, fails twice.  A line that starts with [@@] and is not a
    header the pattern recognises is neither an addition nor a deletion,
    does not start with a backslash, and yet leaves [currentLine] as it
    was: the addition after it is recorded at 0, not at 1.  And after a
    header whose new start is 2^53 an addition does not increment
    [currentLine]: [++] leaves the double as it is, and the next addition
    is recorded at the same number. *)
Lemma line_by_line_counterexample :
  addition_line "@@ -1 +x @@" = false /\
  deletion_line "@@ -1 +x @@" = false /\
  JS.startsWith "@@ -1 +x @@" "\" = false /\
  RegExp.hunk_header "@@ -1 +x @@" = None /\
  Doubles.loop_body Doubles.initial "@@ -1 +x @@" = Doubles.initial /\
  Doubles.currentLine (Doubles.loop_body Doubles.initial "@@ -1 +x @@")
    <> JSNumber.Finite 1 /\
  Doubles.parsePatch ("@@ -1 +x @@" ++ LF ++ "+a") =
  [{| Doubles.type := addition; Doubles.line := JSNumber.Finite 0;
      Doubles.content := "+a" |}] /\
  Doubles.parsePatch
    ("@@ -1 +9007199254740992 @@" ++ LF ++ "+a" ++ LF ++ "+b") =
  [{| Doubles.type := addition;
      Doubles.line := JSNumber.Finite 9007199254740992;
      Doubles.content := "+a" |};
   {| Doubles.type := addition;
      Doubles.line := JSNumber.Finite 9007199254740992;
      Doubles.content := "+b" |}].
Proof.
  repeat split; try (vm_compute; reflexivity); vm_compute; discriminate.
Qed.

(** C1 (amended): [parsePatch] runs the loop body over the lines in order,
    from [currentLine = 0] and no record.  In the state [st] in which the
    loop reaches a line [l]: if [l] starts with [+] and not with [+++], an
    addition record with line [currentLine] and content [l] is pushed and
    [currentLine++] is applied; if [l] starts with [-] and not with [---],
    a deletion record with line [currentLine] and content [l] is pushed and
    [currentLine] stays; if [l] starts with a backslash nothing changes; any
    other line that starts neither with a backslash nor with [@@] has
    [currentLine++] applied and pushes nothing.  [currentLine++] adds one
    whenever [currentLine] is below 2^53. *)
Theorem parsePatch_line_by_line :
  forall patch before l after st,
    JS.split patch newline = (before ++ l :: after)%list ->
    st = Doubles.scan before Doubles.initial ->
    Doubles.currentLine (Doubles.scan [] Doubles.initial)
      = JSNumber.Finite 0 /\
    Doubles.parsePatch patch =
      JS.slice (Doubles.changes (Doubles.scan after (Doubles.loop_body st l)))
        0 10 /\
    (JS.startsWith l "+" = true -> JS.startsWith l "+++" = false ->
     Doubles.loop_body st l =
     {| Doubles.currentLine := JSNumber.succ (Doubles.currentLine st);
        Doubles.changes :=
          (Doubles.changes st ++
           [{| Doubles.type := addition;
               Doubles.line := Doubles.currentLine st;
               Doubles.content := l |}])%list |}) /\
    (JS.startsWith l "-" = true -> JS.startsWith l "---" = false ->
     Doubles.loop_body st l =
     {| Doubles.currentLine := Doubles.currentLine st;
        Doubles.changes :=
          (Doubles.changes st ++
           [{| Doubles.type := deletion;
               Doubles.line := Doubles.currentLine st;
               Doubles.content := l |}])%list |}) /\
    (JS.startsWith l "\" = true -> Doubles.loop_body st l = st) /\
    (addition_line l = false -> deletion_line l = false ->
     JS.startsWith l "\" = false -> JS.startsWith l "@@" = false ->
     Doubles.loop_body st l =
     {| Doubles.currentLine := JSNumber.succ (Doubles.currentLine st);
        Doubles.changes := Doubles.changes st |}) /\
    (forall z, Doubles.currentLine st = JSNumber.Finite z -> z < 2 ^ 53 ->
       JSNumber.succ (Doubles.currentLine st) = JSNumber.Finite (z + 1)).
Proof.
  intros patch before l after st Hsplit ->.
  split; [reflexivity|]. split.
  { unfold Doubles.parsePatch. cbv zeta.
    now rewrite Hsplit, doubles_scan_app, doubles_scan_cons. }
  repeat split.
  - intros H1 H3. unfold Doubles.loop_body.
    rewrite (startsWith_first l "+" "@" "" "@") by (discriminate || assumption).
    now rewrite H1, H3.
  - intros H1 H3. unfold Doubles.loop_body.
    rewrite (startsWith_first l "-" "@" "" "@") by (discriminate || assumption).
    rewrite (startsWith_first l "-" "+" "" "") by (discriminate || assumption).
    now rewrite H1, H3.
  - intros H. unfold Doubles.loop_body.
    rewrite (startsWith_first l "\" "@" "" "@") by (discriminate || assumption).
    rewrite (startsWith_first l "\" "+" "" "") by (discriminate || assumption).
    rewrite (startsWith_first l "\" "-" "" "") by (discriminate || assumption).
    now rewrite H.
  - intros Ha Hd Hb Hh. unfold Doubles.loop_body.
    fold (addition_line l). fold (deletion_line l).
    now rewrite Hh, Ha, Hd, Hb.
  - intros z Hz Hlt. rewrite Hz. now apply succ_exact.
Qed.

Lemma parsePatch_line_by_line_witness :
  JS.split example_patch newline =
    (["@@ -1,3 +1,3 @@"; " context"; "-old line"] ++
     "+new line" :: [""])%list /\
  Doubles.loop_body
    (Doubles.scan ["@@ -1,3 +1,3 @@"; " context"; "-old line"]
       Doubles.initial)
    "+new line" =
  {| Doubles.currentLine := JSNumber.Finite 3;
     Doubles.changes :=
       [{| Doubles.type := deletion; Doubles.line := JSNumber.Finite 2;
           Doubles.content := "-old line" |};
        {| Doubles.type := addition; Doubles.line := JSNumber.Finite 2;
           Doubles.content := "+new line" |}] |}.
Proof.
  split; [reflexivity|].
  rewrite (proj1 (proj2 (proj2
    (parsePatch_line_by_line example_patch
       ["@@ -1,3 +1,3 @@"; " context"; "-old line"] "+new line" [""]
       _ eq_refl eq_refl)))); reflexivity.
Defined.

(** C2: on the patch of the worked example [parsePatch] returns the
    deletion of ["-old line"] at line 2 and then the addition of
    ["+new line"] at line 2, and nothing else. *)
Theorem parsePatch_example :
  parsePatch example_patch =
  [{| type := deletion; line := 2; content := "-old line" |};
   {| type := addition; line := 2; content := "+new line" |}].
Proof. reflexivity. Qed.

(** C3: the result of [parsePatch] never has more than 10 records; when the
    input has more than 10 qualifying lines it has exactly 10, they are the
    first 10 records the loop pushed, and their contents are the first 10
    qualifying lines, in the order of the input. *)
Theorem parsePatch_at_most_10 :
  forall patch,
    (List.length (parsePatch patch) <= 10)%nat /\
    ((10 < List.length (filter qualifying (JS.split patch newline)))%nat ->
     List.length (parsePatch patch) = 10%nat /\
     parsePatch patch = firstn 10 (emitted patch) /\
     map content (parsePatch patch) =
     firstn 10 (filter qualifying (JS.split patch newline))).
Proof.
  intros patch. rewrite parsePatch_emitted. split.
  - apply firstn_le_length.
  - intros H. repeat split.
    + rewrite length_firstn.
      rewrite <- (length_map content), emitted_contents. lia.
    + now rewrite <- firstn_map, emitted_contents.
Qed.

Lemma parsePatch_at_most_10_witness :
  (10 < List.length (filter qualifying
          (JS.split ("+a" ++ LF ++ "-b" ++ LF ++ "+c" ++ LF ++ "-d" ++ LF ++
                     "+e" ++ LF ++ "-f" ++ LF ++ "+g" ++ LF ++ "-h" ++ LF ++
                     "+i" ++ LF ++ "-j" ++ LF ++ "+k" ++ LF ++ "-l")
             newline)))%nat /\
  map content
    (parsePatch ("+a" ++ LF ++ "-b" ++ LF ++ "+c" ++ LF ++ "-d" ++ LF ++
                 "+e" ++ LF ++ "-f" ++ LF ++ "+g" ++ LF ++ "-h" ++ LF ++
                 "+i" ++ LF ++ "-j" ++ LF ++ "+k" ++ LF ++ "-l")) =
  ["+a"; "-b"; "+c"; "-d"; "+e"; "-f"; "+g"; "-h"; "+i"; "-j"].
Proof.
  assert (H : (10 < List.length (filter qualifying
          (JS.split ("+a" ++ LF ++ "-b" ++ LF ++ "+c" ++ LF ++ "-d" ++ LF ++
                     "+e" ++ LF ++ "-f" ++ LF ++ "+g" ++ LF ++ "-h" ++ LF ++
                     "+i" ++ LF ++ "-j" ++ LF ++ "+k" ++ LF ++ "-l")
             newline)))%nat) by (vm_compute; lia).
  split; [exact H|].
  rewrite (proj2 (proj2 (proj2 (parsePatch_at_most_10 _) H))). reflexivity.
Defined.

(** C4, as stated, fails: the header [@@ -1 +9007199254740993 @@] has the
    form, its new start is 9007199254740993, and it sets [currentLine] to
    9007199254740992, the double [parseInt] reads. *)
Lemma hunk_header_counterexample :
  header_line "1" "" "9007199254740993" "" "" = "@@ -1 +9007199254740993 @@" /\
  number "9007199254740993" /\
  JS.parseInt "9007199254740993" = 9007199254740993 /\
  Doubles.currentLine
    (Doubles.loop_body Doubles.initial "@@ -1 +9007199254740993 @@") =
    JSNumber.Finite 9007199254740992 /\
  Doubles.currentLine
    (Doubles.loop_body Doubles.initial "@@ -1 +9007199254740993 @@") <>
    JSNumber.Finite 9007199254740993.
Proof.
  repeat split; try (vm_compute; reflexivity); vm_compute; discriminate.
Qed.

(** C4 (amended): on a line of the form
    [@@ -oldStart[,oldLen] +newStart[,newLen] @@] the loop body sets
    [currentLine] to [parseInt(newStart)] and pushes no record, whatever the
    state before, with or without the lengths; [parseInt(newStart)] is the
    double nearest to the number the digits write, that number itself when
    it is below 2^53; and in a whole input the lines after such a header
    are scanned from [parseInt(newStart)], whatever the lines before it did
    to the cursor. *)
Theorem hunk_header_sets_currentLine :
  forall oldStart oldLen newStart newLen rest,
    number oldStart -> optional_length oldLen ->
    number newStart -> optional_length newLen ->
    (forall st,
       Doubles.loop_body st
         (header_line oldStart oldLen newStart newLen rest) =
       {| Doubles.currentLine := JSNumber.parseInt newStart;
          Doubles.changes := Doubles.changes st |}) /\
    (forall n, newStart = decimal n ->
       JSNumber.parseInt newStart = JSNumber.round (Z.of_nat n) /\
       (Z.of_nat n < 2 ^ 53 ->
        JSNumber.parseInt newStart = JSNumber.Finite (Z.of_nat n))) /\
    (forall before after,
       Doubles.scan (before ++
             header_line oldStart oldLen newStart newLen rest :: after)
         Doubles.initial =
       Doubles.scan after
         {| Doubles.currentLine := JSNumber.parseInt newStart;
            Doubles.changes :=
              Doubles.changes (Doubles.scan before Doubles.initial) |}).
Proof.
  intros oldStart oldLen newStart newLen rest Ha Hb Hc Hd.
  split; [intros st; now apply doubles_header|]. split.
  - intros n ->. unfold JSNumber.parseInt.
    fold (JS.parseInt (decimal n)). rewrite parseInt_decimal.
    split; [reflexivity|apply round_exact].
  - intros before after.
    rewrite doubles_scan_app, doubles_scan_cons.
    now rewrite doubles_header.
Qed.

Lemma hunk_header_sets_currentLine_witness :
  header_line "5" "" "5" "" "" = "@@ -5 +5 @@" /\
  Doubles.loop_body
    {| Doubles.currentLine := JSNumber.Finite 41; Doubles.changes := [] |}
    "@@ -5 +5 @@" =
  {| Doubles.currentLine := JSNumber.Finite 5; Doubles.changes := [] |}.
Proof.
  split; [reflexivity|].
  exact (proj1 (hunk_header_sets_currentLine "5" "" "5" "" ""
                  (number_decimal 5) (or_introl eq_refl)
                  (number_decimal 5) (or_introl eq_refl))
           {| Doubles.currentLine := JSNumber.Finite 41;
              Doubles.changes := [] |}).
Defined.

(** In the exact reading, with lengths and a second header further
    down. *)
Example two_hunks :
  parsePatch ("@@ -1,2 +1,3 @@" ++ LF ++ " a" ++ LF ++ "+b" ++ LF ++
              "@@ -40,2 +57,3 @@ section" ++ LF ++ "-c" ++ LF ++ "+d") =
  [{| type := addition; line := 2; content := "+b" |};
   {| type := deletion; line := 57; content := "-c" |};
   {| type := addition; line := 57; content := "+d" |}].
Proof. reflexivity. Qed.

(** C5, as stated, fails: the line ["@@ bad"] starts with [@@], the pattern
    does not match it, and [currentLine] is not incremented; the addition
    after it is recorded at 0, where a context line before it would make
    it 1. *)
Lemma malformed_header_counterexample :
  JS.startsWith "@@ bad" "@@" = true /\
  RegExp.hunk_header "@@ bad" = None /\
  currentLine (loop_body initial "@@ bad") = currentLine initial /\
  currentLine (loop_body initial "@@ bad") <> currentLine initial + 1 /\
  parsePatch ("@@ bad" ++ LF ++ "+x") =
  [{| type := addition; line := 0; content := "+x" |}] /\
  parsePatch (" context" ++ LF ++ "+x") =
  [{| type := addition; line := 1; content := "+x" |}].
Proof. repeat split; try reflexivity. vm_compute. discriminate. Qed.

(** C5 (amended): a line that starts with [@@] and that the pattern does not
    match pushes no record and leaves [currentLine] as it is: the loop goes
    on as if the line were not there. *)
Theorem malformed_header_is_skipped :
  forall l,
    JS.startsWith l "@@" = true -> RegExp.hunk_header l = None ->
    (forall st, loop_body st l = st) /\
    (forall before after,
       scan (before ++ l :: after) initial = scan (before ++ after) initial).
Proof.
  intros l Hh Hm.
  assert (Hbody : forall st, loop_body st l = st).
  { intros st. unfold loop_body. now rewrite Hh, Hm. }
  split; [exact Hbody|].
  intros before after. now rewrite !scan_app, scan_cons, Hbody.
Qed.

Lemma malformed_header_is_skipped_witness :
  loop_body {| currentLine := 7; changes := [] |} "@@ bad" =
  {| currentLine := 7; changes := [] |}.
Proof.
  exact (proj1 (malformed_header_is_skipped "@@ bad" eq_refl eq_refl)
           {| currentLine := 7; changes := [] |}).
Defined.

(** C6: no record of the result has a content that starts with [+++] or
    with [---], and the loop body pushes nothing on a line that does. *)
Theorem file_headers_not_recorded :
  forall patch,
    (forall r, In r (parsePatch patch) ->
       JS.startsWith (content r) "+++" = false /\
       JS.startsWith (content r) "---" = false) /\
    (forall l st,
       In l (JS.split patch newline) ->
       JS.startsWith l "+++" = true \/ JS.startsWith l "---" = true ->
       changes (loop_body st l) = changes st).
Proof.
  intros patch. split.
  - intros r Hr. rewrite parsePatch_emitted in Hr. apply In_firstn in Hr.
    apply qualifying_not_file_header.
    apply (in_map content) in Hr. rewrite emitted_contents in Hr.
    now apply filter_In in Hr.
  - intros l st _ Hl.
    assert (Hq : qualifying l = false).
    { destruct (qualifying l) eqn:Hq; [|reflexivity].
      apply qualifying_not_file_header in Hq as [H1 H2].
      destruct Hl; congruence. }
    destruct (loop_body_case st l) as [m _ _| |_ Ha|_ _ Hd| |];
      cbn [changes]; try reflexivity;
      unfold qualifying in Hq; apply orb_false_iff in Hq as [Hqa Hqd];
      congruence.
Qed.

Lemma file_headers_not_recorded_witness :
  changes (loop_body {| currentLine := 3; changes := [] |} "+++ b/file.txt")
  = [] /\
  changes (loop_body {| currentLine := 3; changes := [] |} "--- a/file.txt")
  = [].
Proof.
  split.
  - apply (proj2 (file_headers_not_recorded
                    ("--- a/file.txt" ++ LF ++ "+++ b/file.txt"))
             "+++ b/file.txt" {| currentLine := 3; changes := [] |}).
    + right; left; reflexivity.
    + left; reflexivity.
  - apply (proj2 (file_headers_not_recorded
                    ("--- a/file.txt" ++ LF ++ "+++ b/file.txt"))
             "--- a/file.txt" {| currentLine := 3; changes := [] |}).
    + left; reflexivity.
    + right; reflexivity.
Defined.

(** C7: on the empty string [parsePatch] returns no record, and so it does
    on every input none of whose lines starts with [+], [-] or [@@]. *)
Theorem parsePatch_context_only :
  parsePatch "" = [] /\
  forall patch,
    (forall l, In l (JS.split patch newline) ->
       JS.startsWith l "+" = false /\ JS.startsWith l "-" = false /\
       JS.startsWith l "@@" = false) ->
    parsePatch patch = [].
Proof.
  split; [reflexivity|]. intros patch H.
  rewrite parsePatch_emitted.
  assert (He : emitted patch = []).
  { apply (map_eq_nil content). rewrite emitted_contents.
    induction (JS.split patch newline) as [|l ls IH]; [reflexivity|].
    simpl. destruct (H l (or_introl eq_refl)) as (Hp & Hm & _).
    unfold qualifying, addition_line, deletion_line. rewrite Hp, Hm. simpl.
    apply IH. intros l' Hl'. apply H. now right. }
  now rewrite He.
Qed.

Lemma parsePatch_context_only_witness :
  parsePatch (" first" ++ LF ++ LF ++ "\ No newline" ++ LF ++ "last") = [].
Proof.
  apply (proj2 parsePatch_context_only).
  intros l [<-|[<-|[<-|[<-|[]]]]]; repeat split; reflexivity.
Defined.

(** C9: the content of every record of the result is one of the lines of
    the input, as it is; it starts with [+] in an addition and with [-] in a
    deletion, and so is never empty. *)
Theorem record_content_is_input_line :
  forall patch r,
    In r (parsePatch patch) ->
    In (content r) (JS.split patch newline) /\
    (type r = addition -> JS.startsWith (content r) "+" = true) /\
    (type r = deletion -> JS.startsWith (content r) "-" = true) /\
    content r <> "".
Proof.
  intros patch r Hr. rewrite parsePatch_emitted in Hr. apply In_firstn in Hr.
  pose proof (scan_well_tagged patch) as Ht.
  rewrite Forall_forall in Ht. specialize (Ht r Hr).
  apply (in_map content) in Hr. rewrite emitted_contents in Hr.
  apply filter_In in Hr as [Hin _].
  unfold well_tagged, addition_line, deletion_line in Ht.
  split; [exact Hin|].
  destruct (type r); apply andb_true_iff in Ht as [Ht _];
    (split; [|split]); try discriminate; try (intros _; exact Ht);
    intros E; rewrite E in Ht; discriminate.
Qed.

Lemma record_content_is_input_line_witness :
  In "-old line" (JS.split example_patch newline) /\
  JS.startsWith "-old line" "-" = true.
Proof.
  pose (r := {| type := deletion; line := 2; content := "-old line" |}).
  assert (Hr : In r (parsePatch example_patch)) by (left; reflexivity).
  split.
  - exact (proj1 (record_content_is_input_line example_patch r Hr)).
  - exact (proj1 (proj2 (proj2
             (record_content_is_input_line example_patch r Hr))) eq_refl).
Defined.

(** C10: when no line of the input starts with [@@], the line numbers of
    the records of the result never decrease along the result, and none is
    negative. *)
Theorem lines_nondecreasing :
  forall patch,
    (forall l, In l (JS.split patch newline) ->
       JS.startsWith l "@@" = false) ->
    StronglySorted Z.le (map line (parsePatch patch)) /\
    Forall (fun r => 0 <= line r) (parsePatch patch).
Proof.
  intros patch H. rewrite parsePatch_emitted. unfold emitted. split.
  - rewrite <- firstn_map. apply StronglySorted_firstn.
    apply (scan_invariant ordered (JS.split patch newline)).
    + intros st l Hl. apply loop_body_ordered. now apply H.
    + split; constructor.
  - apply Forall_firstn. apply scan_nonnegative.
Qed.

Lemma lines_nondecreasing_witness :
  map line (parsePatch ("+a" ++ LF ++ "-b" ++ LF ++ " c" ++ LF ++ "-d")) =
    [0; 1; 2] /\
  StronglySorted Z.le
    (map line (parsePatch ("+a" ++ LF ++ "-b" ++ LF ++ " c" ++ LF ++ "-d"))).
Proof.
  split; [reflexivity|].
  apply (lines_nondecreasing ("+a" ++ LF ++ "-b" ++ LF ++ " c" ++ LF ++ "-d")).
  intros l [<-|[<-|[<-|[<-|[]]]]]; reflexivity.
Defined.

(** * More of the page *)

(** ** [parsePatch]: more of what the loop does *)

Lemma split_aux_append a sep b :
  JS.split_aux (a ++ String sep b) sep =
  (fst (JS.split_aux a sep),
   (snd (JS.split_aux a sep) ++ JS.split b sep)%list).
Proof.
  induction a as [|c a IH]; cbn [append JS.split_aux].
  - rewrite Ascii.eqb_refl. unfold JS.split.
    now destruct (JS.split_aux b sep).
  - rewrite IH. destruct (JS.split_aux a sep) as [piece pieces].
    now destruct (Ascii.eqb c sep).
Qed.

Lemma split_append a sep b :
  JS.split (a ++ String sep b) sep = (JS.split a sep ++ JS.split b sep)%list.
Proof.
  unfold JS.split at 1 2. rewrite split_aux_append.
  now destruct (JS.split_aux a sep).
Qed.

Lemma scan_changes_grow lines : forall st,
  exists more, changes (scan lines st) = (changes st ++ more)%list.
Proof.
  induction lines as [|l ls IH]; intros st.
  - exists []. now rewrite app_nil_r.
  - rewrite scan_cons. destruct (IH (loop_body st l)) as [more ->].
    destruct (loop_body_case st l); cbn [changes];
      try (now exists more); rewrite <- app_assoc; eauto.
Qed.

Lemma firstn_app_long {A} n (l more : list A) :
  (n <= List.length l)%nat -> firstn n (l ++ more) = firstn n l.
Proof.
  intros H. rewrite firstn_app.
  replace (n - List.length l)%nat with 0%nat by lia.
  now rewrite app_nil_r.
Qed.

Lemma StronglySorted_app_l {A} (R : A -> A -> Prop) l l' :
  StronglySorted R (l ++ l') -> StronglySorted R l.
Proof.
  induction l as [|x l IH]; simpl; intros H; [constructor|].
  inversion H; subst. constructor; [now apply IH|].
  match goal with F : Forall _ (_ ++ _) |- _ => now apply Forall_app in F end.
Qed.

Lemma qualifying_advancing l :
  advancing l = (addition_line l || negb (qualifying l || JS.startsWith l "\")).
Proof.
  unfold advancing, qualifying.
  destruct (addition_line l) eqn:Ha, (deletion_line l), (JS.startsWith l "\");
    reflexivity.
Qed.

Lemma loop_body_advance st l :
  JS.startsWith l "@@" = false ->
  currentLine (loop_body st l) =
  currentLine st + (if advancing l then 1 else 0).
Proof.
  intros Hh. unfold advancing.
  destruct (loop_body_case st l) as [m H _|H _|_ Ha|_ Ha Hd|_ Hq Hb|_ Hq Hb];
    try congruence; cbn [currentLine].
  - now rewrite Ha.
  - rewrite Ha, Hd. cbn. lia.
  - unfold qualifying in Hq. apply orb_false_iff in Hq as [-> ->].
    now rewrite Hb.
  - unfold qualifying in Hq. apply orb_false_iff in Hq as [-> ->].
    rewrite Hb. cbn. lia.
Qed.

Lemma scan_advance lines : forall st,
  (forall l, In l lines -> JS.startsWith l "@@" = false) ->
  currentLine (scan lines st) =
  currentLine st + Z.of_nat (List.length (filter advancing lines)).
Proof.
  induction lines as [|l ls IH]; intros st H.
  - cbn. lia.
  - rewrite scan_cons, IH by (intros l' Hl'; apply H; now right).
    rewrite loop_body_advance by (apply H; now left).
    cbn [filter]. destruct (advancing l); cbn [List.length]; lia.
Qed.

Lemma loop_body_qualifying st l :
  qualifying l = true ->
  changes (loop_body st l) =
  (changes st ++ [record_of l (currentLine st)])%list.
Proof.
  intros Hq. unfold record_of.
  destruct (loop_body_case st l) as [m H _|H _|_ Ha|_ Ha Hd|_ Hq' _|_ Hq' _];
    cbn [changes]; try (rewrite (header_not_qualifying l H) in Hq);
    try congruence; now rewrite Ha.
Qed.

(** X1: the number of records returned is the number of qualifying lines of
    the input, or 10 when there are more. *)
Theorem parsePatch_length :
  forall patch,
    List.length (parsePatch patch) =
    Nat.min 10 (List.length (filter qualifying (JS.split patch newline))).
Proof.
  intros patch. rewrite parsePatch_emitted, length_firstn.
  now rewrite <- (length_map content), emitted_contents.
Qed.

(** X2: no record has a negative line number, whatever the input, hunk
    headers included. *)
Theorem parsePatch_lines_nonnegative :
  forall patch, Forall (fun r => 0 <= line r) (parsePatch patch).
Proof.
  intros patch. rewrite parsePatch_emitted. apply Forall_firstn.
  apply scan_nonnegative.
Qed.

(** *** The two readings of the numbers agree below 2^53 *)

Lemma loop_body_exact st l :
  currentLine (loop_body st l) < 2 ^ 53 ->
  Doubles.loop_body (as_doubles st) l = as_doubles (loop_body st l).
Proof.
  unfold loop_body, Doubles.loop_body.
  destruct (JS.startsWith l "@@").
  - destruct (RegExp.hunk_header l) as [m|]; [|reflexivity].
    cbn [currentLine]. intros H. unfold as_doubles at 2.
    cbn [currentLine changes Doubles.changes as_doubles].
    now rewrite parseInt_exact.
  - destruct (JS.startsWith l "+" && negb (JS.startsWith l "+++")).
    + cbn [currentLine]. intros H. unfold as_doubles, JS.push.
      cbn [currentLine changes Doubles.currentLine Doubles.changes].
      rewrite succ_exact by lia. now rewrite map_app.
    + destruct (JS.startsWith l "-" && negb (JS.startsWith l "---")).
      * intros _. unfold as_doubles, JS.push.
        cbn [currentLine changes Doubles.currentLine Doubles.changes].
        now rewrite map_app.
      * destruct (negb (JS.startsWith l "\")); [|reflexivity].
        cbn [currentLine]. intros H. unfold as_doubles.
        cbn [currentLine changes Doubles.currentLine Doubles.changes].
        now rewrite succ_exact by lia.
Qed.

(** As long as the cursor stays below 2^53 the code computes what the exact
    reading says. *)
Lemma scan_exact lines : forall st,
  in_range lines st ->
  Doubles.scan lines (as_doubles st) = as_doubles (scan lines st).
Proof.
  induction lines as [|l ls IH]; intros st H; [reflexivity|].
  destruct H as [Hl Hls].
  rewrite doubles_scan_cons, scan_cons, loop_body_exact by assumption.
  now apply IH.
Qed.

Lemma parsePatch_exact patch :
  in_range (JS.split patch newline) initial ->
  Doubles.parsePatch patch = map as_double (parsePatch patch).
Proof.
  intros H. unfold Doubles.parsePatch, parsePatch. cbv zeta.
  change Doubles.initial with (as_doubles initial).
  rewrite scan_exact by assumption.
  rewrite !slice_0. cbn [as_doubles Doubles.changes]. apply firstn_map.
Qed.

(** Without hunk headers the cursor only counts lines. *)
Lemma in_range_without_headers lines : forall st,
  (forall l, In l lines -> JS.startsWith l "@@" = false) ->
  currentLine st + Z.of_nat (List.length lines) < 2 ^ 53 ->
  in_range lines st.
Proof.
  induction lines as [|l ls IH]; intros st H Hb; [exact I|].
  cbn [List.length] in Hb.
  assert (Hl : currentLine (loop_body st l) <= currentLine st + 1).
  { rewrite loop_body_advance by (apply H; now left).
    destruct (advancing l); lia. }
  split; [lia|]. apply IH; [intros l' Hl'; apply H; now right|lia].
Qed.

(** So on a patch without hunk headers the code returns what the exact
    reading says. *)
Lemma parsePatch_exact_without_headers patch :
  (forall l, In l (JS.split patch newline) -> JS.startsWith l "@@" = false) ->
  Z.of_nat (List.length (JS.split patch newline)) < 2 ^ 53 ->
  Doubles.parsePatch patch = map as_double (parsePatch patch).
Proof.
  intros H Hlen. apply parsePatch_exact.
  apply in_range_without_headers; [exact H|exact Hlen].
Qed.

(** *** The cursor between hunk headers *)

Lemma doubles_loop_body_advance st l c :
  JS.startsWith l "@@" = false ->
  Doubles.currentLine st = JSNumber.Finite c -> c < 2 ^ 53 ->
  Doubles.currentLine (Doubles.loop_body st l) =
  JSNumber.Finite (c + (if advancing l then 1 else 0)).
Proof.
  intros Hh Hc Hlt. unfold Doubles.loop_body, advancing. rewrite Hh.
  fold (addition_line l). fold (deletion_line l).
  destruct (addition_line l) eqn:Ha; cbn [orb].
  - cbn [Doubles.currentLine]. rewrite Hc. now apply succ_exact.
  - destruct (deletion_line l) eqn:Hd; cbn [negb andb Doubles.currentLine].
    + rewrite Hc. f_equal. lia.
    + destruct (JS.startsWith l "\"); cbn [negb Doubles.currentLine].
      * rewrite Hc. f_equal. lia.
      * rewrite Hc. now apply succ_exact.
Qed.

Lemma doubles_scan_advance lines : forall st c,
  (forall l, In l lines -> JS.startsWith l "@@" = false) ->
  Doubles.currentLine st = JSNumber.Finite c ->
  c + Z.of_nat (List.length (filter advancing lines)) < 2 ^ 53 ->
  Doubles.currentLine (Doubles.scan lines st) =
  JSNumber.Finite (c + Z.of_nat (List.length (filter advancing lines))).
Proof.
  induction lines as [|l ls IH]; intros st c H Hc Hb.
  - cbn. rewrite Hc. f_equal. lia.
  - rewrite doubles_scan_cons. cbn [filter] in *.
    assert (Hstep := doubles_loop_body_advance st l c
                       (H l (or_introl eq_refl)) Hc).
    destruct (advancing l); cbn [List.length] in *.
    + rewrite (IH _ (c + 1)); [f_equal; lia| |apply Hstep; lia|lia].
      intros l' Hl'. apply H. now right.
    + rewrite (IH _ (c + 0)); [f_equal; lia| |apply Hstep; lia|lia].
      intros l' Hl'. apply H. now right.
Qed.

Lemma doubles_loop_body_qualifying st l c :
  qualifying l = true -> Doubles.currentLine st = JSNumber.Finite c ->
  Doubles.changes (Doubles.loop_body st l) =
  (Doubles.changes st ++ [as_double (record_of l c)])%list.
Proof.
  intros Hq Hc. unfold Doubles.loop_body, as_double, record_of, JS.push.
  cbn [type line content].
  destruct (JS.startsWith l "@@") eqn:Hh.
  - rewrite (header_not_qualifying l Hh) in Hq. discriminate.
  - fold (addition_line l). fold (deletion_line l).
    unfold qualifying in Hq.
    destruct (addition_line l); cbn [Doubles.changes]; [now rewrite Hc|].
    cbn [orb] in Hq. rewrite Hq. cbn [Doubles.changes]. now rewrite Hc.
Qed.

(** X3: over lines none of which starts with [@@], from a cursor [c] and
    as long as the count stays below 2^53, the cursor ends as many positions
    further as there are lines that are neither deletions nor backslash
    markers; so a qualifying line met after such lines is recorded at [c]
    plus the number of advancing lines among them. *)
Theorem cursor_counts_advancing_lines :
  forall before st c,
    (forall l, In l before -> JS.startsWith l "@@" = false) ->
    Doubles.currentLine st = JSNumber.Finite c ->
    c + Z.of_nat (List.length (filter advancing before)) < 2 ^ 53 ->
    Doubles.currentLine (Doubles.scan before st) =
    JSNumber.Finite (c + Z.of_nat (List.length (filter advancing before))) /\
    (forall l, qualifying l = true ->
       Doubles.changes (Doubles.scan (before ++ [l]) st) =
       (Doubles.changes (Doubles.scan before st) ++
        [as_double
           (record_of l
              (c + Z.of_nat (List.length (filter advancing before))))])%list).
Proof.
  intros before st c H Hc Hb.
  assert (Hend := doubles_scan_advance before st c H Hc Hb).
  split; [exact Hend|].
  intros l Hq. rewrite doubles_scan_app. cbn [Doubles.scan fold_left].
  now apply doubles_loop_body_qualifying.
Qed.

Lemma cursor_counts_advancing_lines_witness :
  Doubles.changes
    (Doubles.scan ([" a"; "-b"; "\ No newline at end of file"; "+c"] ++ ["+d"])
       {| Doubles.currentLine := JSNumber.Finite 7; Doubles.changes := [] |}) =
  [{| Doubles.type := deletion; Doubles.line := JSNumber.Finite 8;
      Doubles.content := "-b" |};
   {| Doubles.type := addition; Doubles.line := JSNumber.Finite 8;
      Doubles.content := "+c" |};
   {| Doubles.type := addition; Doubles.line := JSNumber.Finite 9;
      Doubles.content := "+d" |}].
Proof.
  rewrite (proj2 (cursor_counts_advancing_lines
                    [" a"; "-b"; "\ No newline at end of file"; "+c"]
                    {| Doubles.currentLine := JSNumber.Finite 7;
                       Doubles.changes := [] |} 7
                    ltac:(intros l [<-|[<-|[<-|[<-|[]]]]]; reflexivity)
                    eq_refl ltac:(vm_compute; reflexivity))
             "+d" eq_refl).
  reflexivity.
Defined.

(** X4: lines added at the end of a patch never change the records already
    found: the result on the longer patch is the first 10 of the result on
    the shorter one followed by more records, and it is the same result
    once the shorter patch gives 10 records. *)
Theorem parsePatch_append :
  forall patch more,
    (exists records,
       parsePatch (patch ++ LF ++ more) =
       firstn 10 (parsePatch patch ++ records)) /\
    (List.length (parsePatch patch) = 10%nat ->
     parsePatch (patch ++ LF ++ more) = parsePatch patch).
Proof.
  intros patch more.
  assert (H : exists records,
    emitted (patch ++ LF ++ more) = (emitted patch ++ records)%list).
  { unfold emitted, LF. cbn [append]. rewrite split_append, scan_app.
    apply scan_changes_grow. }
  destruct H as [records H]. rewrite !parsePatch_emitted, H. split.
  - exists records.
    destruct (Nat.le_gt_cases 10 (List.length (emitted patch))) as [Hl|Hl].
    + rewrite firstn_app_long by assumption.
      rewrite firstn_app_long; [now rewrite firstn_firstn|].
      rewrite length_firstn. lia.
    + now rewrite (firstn_all2 (emitted patch)) by lia.
  - intros Hlen. rewrite length_firstn in Hlen.
    apply firstn_app_long. lia.
Qed.

Lemma parsePatch_append_witness :
  parsePatch (("+a" ++ LF ++ "-b" ++ LF ++ "+c" ++ LF ++ "-d" ++ LF ++
               "+e" ++ LF ++ "-f" ++ LF ++ "+g" ++ LF ++ "-h" ++ LF ++
               "+i" ++ LF ++ "-j") ++ LF ++ "@@ -1 +90 @@" ++ LF ++ "+k") =
  parsePatch ("+a" ++ LF ++ "-b" ++ LF ++ "+c" ++ LF ++ "-d" ++ LF ++
              "+e" ++ LF ++ "-f" ++ LF ++ "+g" ++ LF ++ "-h" ++ LF ++
              "+i" ++ LF ++ "-j").
Proof.
  apply (proj2 (parsePatch_append _ ("@@ -1 +90 @@" ++ LF ++ "+k"))).
  reflexivity.
Defined.

Lemma loop_body_additions_ordered st l :
  JS.startsWith l "@@" = false ->
  additions_ordered st -> additions_ordered (loop_body st l).
Proof.
  intros Hl [Hc Hs]. unfold additions_ordered.
  assert (Hup : Forall (fun n => n < currentLine st + 1)
                  (map line (filter is_addition (changes st)))).
  { eapply Forall_impl; [|exact Hc]. cbn beta. intros n Hn. lia. }
  destruct (loop_body_case st l) as [m Hh _|Hh _| | | |];
    try congruence; cbn [changes currentLine];
    rewrite ?filter_app, ?map_app; cbn [filter is_addition type map];
    rewrite ?app_nil_r; try (now split).
  cbn [line]. split.
  - apply Forall_app. split; [exact Hup|].
    constructor; [lia|constructor].
  - now apply StronglySorted_snoc.
Qed.

(** X5: when no line of the input starts with [@@], the additions of the
    result have strictly increasing line numbers: no two additions share a
    line. *)
Theorem additions_strictly_increasing :
  forall patch,
    (forall l, In l (JS.split patch newline) ->
       JS.startsWith l "@@" = false) ->
    StronglySorted Z.lt (map line (filter is_addition (parsePatch patch))).
Proof.
  intros patch H. rewrite parsePatch_emitted.
  assert (Ho : additions_ordered (scan (JS.split patch newline) initial)).
  { apply (scan_invariant additions_ordered).
    - intros st l Hl. apply loop_body_additions_ordered. now apply H.
    - split; constructor. }
  destruct Ho as [_ Hs]. fold (emitted patch) in Hs.
  rewrite <- (firstn_skipn 10 (emitted patch)) in Hs.
  rewrite filter_app, map_app in Hs.
  now apply StronglySorted_app_l in Hs.
Qed.

Lemma additions_strictly_increasing_witness :
  map line (filter is_addition
              (parsePatch ("+a" ++ LF ++ "-b" ++ LF ++ "+c" ++ LF ++ " d"
                           ++ LF ++ "+e"))) = [0; 1; 3] /\
  StronglySorted Z.lt
    (map line (filter is_addition
                 (parsePatch ("+a" ++ LF ++ "-b" ++ LF ++ "+c" ++ LF ++ " d"
                              ++ LF ++ "+e")))).
Proof.
  split; [reflexivity|].
  apply (additions_strictly_increasing
           ("+a" ++ LF ++ "-b" ++ LF ++ "+c" ++ LF ++ " d" ++ LF ++ "+e")).
  intros l [<-|[<-|[<-|[<-|[<-|[]]]]]]; reflexivity.
Defined.

(** ** Strings and arrays *)

Lemma string_app_assoc (a b c : string) : (a ++ b) ++ c = a ++ (b ++ c).
Proof. induction a as [|x a IH]; cbn; [reflexivity|now rewrite IH]. Qed.

Lemma string_app_nil_r (a : string) : a ++ "" = a.
Proof. induction a as [|x a IH]; cbn; [reflexivity|now rewrite IH]. Qed.

Lemma includes_cons c s pat :
  JSString.includes (String c s) pat =
  JS.startsWith (String c s) pat || JSString.includes s pat.
Proof. reflexivity. Qed.

Lemma includes_app_r a b pat :
  JSString.includes (a ++ b) pat = false -> JSString.includes b pat = false.
Proof.
  induction a as [|c a IH]; cbn [append]; [trivial|].
  rewrite includes_cons. intros H. apply orb_false_iff in H as [_ H].
  now apply IH.
Qed.

Lemma includes_char_app a b c :
  JSString.includes (a ++ b) (String c "") =
  JSString.includes a (String c "") || JSString.includes b (String c "").
Proof.
  induction a as [|x a IH]; cbn [append].
  - now destruct b.
  - rewrite !includes_cons, IH. cbn. now rewrite !andb_true_r, orb_assoc.
Qed.

Lemma replace_absent s pat rep :
  JSString.includes s pat = false -> JSString.replace s pat rep = s.
Proof.
  induction s as [|c s IH]; cbn [JSString.includes JSString.replace];
    intros H; apply orb_false_iff in H as [H1 H2]; rewrite H1;
    [reflexivity|]. now rewrite IH.
Qed.

(** No occurrence of [.git] starts in [r] and ends in a [.git] put after
    it. *)
Lemma dot_git_no_straddle c r :
  JS.startsWith (String c r) ".git" = false ->
  JS.startsWith (String c r ++ ".git") ".git" = false.
Proof.
  cbn. destruct (Ascii.eqb c ".") eqn:E1; [|reflexivity]. cbn.
  destruct r as [|c2 r]; [reflexivity|]. cbn.
  destruct (Ascii.eqb c2 "g") eqn:E2; [|reflexivity]. cbn.
  destruct r as [|c3 r]; [reflexivity|]. cbn.
  destruct (Ascii.eqb c3 "i") eqn:E3; [|reflexivity]. cbn.
  destruct r as [|c4 r]; [reflexivity|]. cbn.
  destruct (Ascii.eqb c4 "t") eqn:E4; [discriminate|reflexivity].
Qed.

Lemma replace_dot_git r :
  JSString.includes r ".git" = false ->
  JSString.replace (r ++ ".git") ".git" "" = r.
Proof.
  induction r as [|c r IH]; intros H; [reflexivity|].
  rewrite includes_cons in H. apply orb_false_iff in H as [H1 H2].
  cbn [append JSString.replace].
  change (String c (r ++ ".git")) with (String c r ++ ".git").
  rewrite (dot_git_no_straddle c r H1).
  cbn [append]. now rewrite IH.
Qed.

Lemma includes_drop n : forall s c,
  JSString.includes s (String c "") = false ->
  JSString.includes (JSString.drop n s) (String c "") = false.
Proof.
  induction n as [|n IH]; intros [|x s] c H; cbn [JSString.drop]; trivial.
  rewrite includes_cons in H. apply orb_false_iff in H as [_ H].
  now apply IH.
Qed.

Lemma replace_keeps_absent s pat c :
  JSString.includes s (String c "") = false ->
  JSString.includes (JSString.replace s pat "") (String c "") = false.
Proof.
  induction s as [|x s IH]; cbn [JSString.replace]; intros H.
  - destruct (JS.startsWith "" pat); [|reflexivity].
    cbn [append]. now apply includes_drop.
  - destruct (JS.startsWith (String x s) pat).
    + cbn [append]. now apply includes_drop.
    + rewrite includes_cons in *. apply orb_false_iff in H as [H1 H2].
      apply orb_false_iff. split; [exact H1|now apply IH].
Qed.

Lemma split_aux_absent s sep :
  JSString.includes s (String sep "") = false ->
  JS.split_aux s sep = (s, []).
Proof.
  induction s as [|c s IH]; intros H; [reflexivity|].
  rewrite includes_cons in H. apply orb_false_iff in H as [H1 H2].
  cbn in H1. rewrite andb_true_r in H1.
  cbn [JS.split_aux]. now rewrite IH, H1.
Qed.

Lemma split_absent s sep :
  JSString.includes s (String sep "") = false -> JS.split s sep = [s].
Proof. intros H. unfold JS.split. now rewrite split_aux_absent. Qed.

Lemma split_aux_pieces s sep :
  JSString.includes (fst (JS.split_aux s sep)) (String sep "") = false /\
  Forall (fun p => JSString.includes p (String sep "") = false)
    (snd (JS.split_aux s sep)).
Proof.
  induction s as [|c s [IH1 IH2]]; cbn [JS.split_aux].
  - split; [reflexivity|constructor].
  - destruct (JS.split_aux s sep) as [piece pieces]. cbn [fst snd] in *.
    destruct (Ascii.eqb c sep) eqn:E; cbn [fst snd].
    + split; [reflexivity|now constructor].
    + split; [|exact IH2]. rewrite includes_cons. cbn.
      now rewrite E, andb_true_r.
Qed.

(** No piece of [s.split(sep)] holds the separator. *)
Lemma split_pieces s sep :
  Forall (fun p => JSString.includes p (String sep "") = false)
    (JS.split s sep).
Proof.
  unfold JS.split. pose proof (split_aux_pieces s sep) as [H1 H2].
  destruct (JS.split_aux s sep). now constructor.
Qed.

Lemma split_nonempty s sep : JS.split s sep <> [].
Proof. unfold JS.split. now destruct (JS.split_aux s sep). Qed.

Lemma pop_snoc {A} (l : list A) x : JSArray.pop (l ++ [x]) = Some x.
Proof.
  induction l as [|y l IH]; [reflexivity|].
  cbn [app JSArray.pop]. rewrite IH. now destruct l.
Qed.

Lemma pop_In {A} (l : list A) x : JSArray.pop l = Some x -> In x l.
Proof.
  induction l as [|y l IH]; cbn [JSArray.pop]; [discriminate|].
  destruct l as [|z l]; [intros [= ->]; now left|].
  intros H. right. now apply IH.
Qed.

Lemma slice_last_two {A} (l : list A) x y :
  JSArray.slice (l ++ [x; y]) (-2) None = [x; y].
Proof.
  unfold JSArray.slice, JSString.relative. cbv zeta.
  rewrite length_app. cbn [List.length].
  change (-2 <? 0) with true. cbv iota.
  replace (Z.to_nat (Z.max (Z.of_nat (List.length l + 2) + -2) 0))
    with (List.length l) by lia.
  replace (Z.to_nat _) with 2%nat by lia.
  rewrite skipn_app, skipn_all, Nat.sub_diag. reflexivity.
Qed.

(** ** [proposalDetails.tsx]: the fork of the current user *)

Lemma split_repository_link base owner repo ending :
  JSString.includes owner "/" = false ->
  JSString.includes (repo ++ ending) "/" = false ->
  JS.split (repository_link base owner repo ending) "/" =
  (JS.split base "/" ++ [owner; (repo ++ ending)%string])%list.
Proof.
  intros Ho Hr. unfold repository_link. cbn [append].
  rewrite split_append. f_equal.
  rewrite split_append. now rewrite (split_absent owner), (split_absent _ _ Hr).
Qed.

(** X6: for a link that ends in [/owner/repo] or [/owner/repo.git], where
    neither name holds a [/] and [owner/repo] holds no [.git], [repoName] is
    [repo] and [originalRepo] is [owner/repo], whatever comes before; the
    clone URL of the fork is then
    [https://github.com/<username>/<repo>.git]. *)
Theorem names_of_repository_link :
  forall base owner repo ending,
    JSString.includes owner "/" = false ->
    JSString.includes repo "/" = false ->
    JSString.includes (owner ++ "/" ++ repo) ".git" = false ->
    ending = "" \/ ending = ".git" ->
    ProposalDetails.repoName (repository_link base owner repo ending) = repo /\
    ProposalDetails.originalRepo (repository_link base owner repo ending) =
      owner ++ "/" ++ repo /\
    (forall user branch,
       ProposalDetails.cloneUrl
         (ProposalDetails.newBranchInfo
            (repository_link base owner repo ending) user branch) =
       "https://github.com/" ++ ProposalDetails.username user ++ "/"
       ++ repo ++ ".git").
Proof.
  intros base owner repo ending Ho Hr Hg He.
  assert (Hre : JSString.includes (repo ++ ending) "/" = false).
  { rewrite includes_char_app, Hr. now destruct He as [->| ->]. }
  assert (Hg' : JSString.includes repo ".git" = false).
  { apply (includes_app_r (owner ++ "/")). now rewrite string_app_assoc. }
  assert (Hname :
    ProposalDetails.repoName (repository_link base owner repo ending) = repo).
  { unfold ProposalDetails.repoName.
    rewrite split_repository_link by assumption.
    change [owner; repo ++ ending] with ([owner] ++ [(repo ++ ending)%string])%list.
    rewrite app_assoc, pop_snoc. cbn [option_map ProposalDetails.or_empty].
    destruct He as [->| ->].
    - rewrite string_app_nil_r. now apply replace_absent.
    - now apply replace_dot_git. }
  split; [exact Hname|]. split.
  - unfold ProposalDetails.originalRepo.
    rewrite split_repository_link by assumption.
    rewrite slice_last_two. cbn [JSArray.join].
    destruct He as [->| ->].
    + rewrite string_app_nil_r. now apply replace_absent.
    + replace (owner ++ "/" ++ repo ++ ".git")
        with ((owner ++ "/" ++ repo) ++ ".git")
        by (now rewrite !string_app_assoc).
      now apply replace_dot_git.
  - intros user branch. cbn [ProposalDetails.newBranchInfo
                             ProposalDetails.cloneUrl].
    now rewrite Hname.
Qed.

Lemma names_of_repository_link_witness :
  repository_link "https://github.com" "forge" "my.dao" ".git" =
    "https://github.com/forge/my.dao.git" /\
  ProposalDetails.repoName "https://github.com/forge/my.dao.git" = "my.dao" /\
  ProposalDetails.originalRepo "https://github.com/forge/my.dao.git" =
    "forge/my.dao".
Proof.
  split; [reflexivity|].
  pose proof (names_of_repository_link "https://github.com" "forge" "my.dao"
                ".git" eq_refl eq_refl eq_refl (or_intror eq_refl)) as H.
  split; [exact (proj1 H)|exact (proj1 (proj2 H))].
Defined.

(** X7: [repoName] never holds a [/], whatever the link; for a link that
    ends in [/] it is the empty string, and the clone URL is then
    [https://github.com/<username>/.git]. *)
Theorem repoName_has_no_slash :
  forall link,
    JSString.includes (ProposalDetails.repoName link) "/" = false /\
    ProposalDetails.repoName (link ++ "/") = "" /\
    (forall user branch,
       ProposalDetails.cloneUrl
         (ProposalDetails.newBranchInfo (link ++ "/") user branch) =
       "https://github.com/" ++ ProposalDetails.username user ++ "/.git").
Proof.
  intros link.
  assert (Hslash : ProposalDetails.repoName (link ++ "/") = "").
  { unfold ProposalDetails.repoName. rewrite split_append.
    change (JS.split "" "/") with [""]. now rewrite pop_snoc. }
  split; [|split; [exact Hslash|]].
  - unfold ProposalDetails.repoName.
    destruct (JSArray.pop (JS.split link "/")) as [last|] eqn:E;
      [|reflexivity].
    cbn [option_map ProposalDetails.or_empty].
    apply replace_keeps_absent. apply pop_In in E.
    pose proof (split_pieces link "/") as H.
    rewrite Forall_forall in H. now apply H.
  - intros user branch. cbn [ProposalDetails.newBranchInfo
                             ProposalDetails.cloneUrl].
    now rewrite Hslash.
Qed.

(** X8: a branch counts as the current user's only when it has a truthy
    [user_id]; then, for numeric ids that are integers below 2^53 in
    absolute value, it counts exactly when that id and the user's, both
    turned into strings, are equal (the user's being truthy too) or when
    the user names are equal.  So such a numeric id matches the same id held
    as a string, and an equal user name suffices when the ids differ.  With
    nobody logged in no branch counts. *)
Theorem branch_of_current_user :
  forall user branch,
    ProposalDetails.exact_id (ProposalDetails.Branch.user_id branch) ->
    ProposalDetails.exact_id (ProposalDetails.id user) ->
    ProposalDetails.isCurrentUserBranch None branch = false /\
    (ProposalDetails.truthy (ProposalDetails.Branch.user_id branch) = false ->
     ProposalDetails.isCurrentUserBranch (Some user) branch = false) /\
    (ProposalDetails.truthy (ProposalDetails.Branch.user_id branch) = true ->
     (ProposalDetails.isCurrentUserBranch (Some user) branch = true <->
      (ProposalDetails.truthy (ProposalDetails.id user) = true /\
       ProposalDetails.ToString (ProposalDetails.Branch.user_id branch) =
       ProposalDetails.ToString (ProposalDetails.id user)) \/
      ProposalDetails.Branch.username branch =
      ProposalDetails.username user)) /\
    (forall n, n <> 0 ->
       ProposalDetails.Branch.user_id branch = ProposalDetails.IdNumber n ->
       ProposalDetails.id user =
         ProposalDetails.IdString (JSString.of_number n) ->
       ProposalDetails.isCurrentUserBranch (Some user) branch = true).
Proof.
  intros user branch _ _. split; [reflexivity|].
  assert (Hiff :
    ProposalDetails.truthy (ProposalDetails.Branch.user_id branch) = true ->
    (ProposalDetails.isCurrentUserBranch (Some user) branch = true <->
      (ProposalDetails.truthy (ProposalDetails.id user) = true /\
       ProposalDetails.ToString (ProposalDetails.Branch.user_id branch) =
       ProposalDetails.ToString (ProposalDetails.id user)) \/
      ProposalDetails.Branch.username branch =
      ProposalDetails.username user)).
  { intros Ht. unfold ProposalDetails.isCurrentUserBranch.
    rewrite Ht. cbn [negb andb].
    destruct (ProposalDetails.truthy (ProposalDetails.id user)) eqn:Hu;
      cbn [andb].
    - destruct (String.eqb_spec
                  (ProposalDetails.ToString
                     (ProposalDetails.Branch.user_id branch))
                  (ProposalDetails.ToString (ProposalDetails.id user)))
        as [E|E].
      + split; [now left|reflexivity].
      + rewrite String.eqb_eq. split; [now right|].
        intros [[_ H]|H]; [contradiction|exact H].
    - rewrite String.eqb_eq. split; [now right|].
      intros [[H _]|H]; [discriminate|exact H]. }
  split; [|split; [exact Hiff|]].
  - intros Ht. unfold ProposalDetails.isCurrentUserBranch. now rewrite Ht.
  - intros n Hn Hb Hu.
    assert (Htb : ProposalDetails.truthy
                    (ProposalDetails.Branch.user_id branch) = true).
    { rewrite Hb. cbn. apply negb_true_iff. now apply Z.eqb_neq. }
    apply (proj2 (Hiff Htb)). left. rewrite Hb, Hu. split; [|reflexivity].
    cbn. apply negb_true_iff. apply String.eqb_neq.
    unfold JSString.of_number. destruct (n <? 0); [discriminate|].
    apply number_decimal.
Qed.

Lemma branch_of_current_user_witness :
  ProposalDetails.isCurrentUserBranch
    (Some {| ProposalDetails.id := ProposalDetails.IdString "42";
             ProposalDetails.username := "ada" |})
    {| ProposalDetails.Branch.id := "b1";
       ProposalDetails.Branch.branch_name := "fix";
       ProposalDetails.Branch.action := "created";
       ProposalDetails.Branch.username := "ada-old";
       ProposalDetails.Branch.user_id := ProposalDetails.IdNumber 42;
       ProposalDetails.Branch.created_at := "2025-01-01" |} = true.
Proof.
  assert (Hid : ProposalDetails.exact_id (ProposalDetails.IdNumber 42)).
  { unfold ProposalDetails.exact_id. split; reflexivity. }
  exact (proj2 (proj2 (proj2
           (branch_of_current_user
              {| ProposalDetails.id := ProposalDetails.IdString "42";
                 ProposalDetails.username := "ada" |}
              {| ProposalDetails.Branch.id := "b1";
                 ProposalDetails.Branch.branch_name := "fix";
                 ProposalDetails.Branch.action := "created";
                 ProposalDetails.Branch.username := "ada-old";
                 ProposalDetails.Branch.user_id := ProposalDetails.IdNumber 42;
                 ProposalDetails.Branch.created_at := "2025-01-01" |}
              Hid I))) 42 ltac:(discriminate) eq_refl eq_refl).
Defined.

(** ** [proposalDetails.tsx]: the file changes shown *)

Lemma find_map {A B} (p : B -> bool) (g : A -> B) l :
  find p (map g l) = option_map g (find (fun x => p (g x)) l).
Proof.
  induction l as [|x l IH]; [reflexivity|].
  cbn [map find]. now destruct (p (g x)).
Qed.

Lemma formatChange_changes file :
  ProposalDetails.CodeChange.changes (ProposalDetails.formatChange file) =
  parsePatch (ProposalDetails.or_empty (ProposalDetails.GitHubFile.patch file)).
Proof.
  unfold ProposalDetails.formatChange. cbn [ProposalDetails.CodeChange.changes].
  now destruct (ProposalDetails.GitHubFile.patch file) as [[|c p]|].
Qed.

(** X9: the code changes built from the answer of the server have one entry
    per file, in the same order and under the same names, with the counts
    the server sent; the changes of an entry are [parsePatch] of the patch
    of the file, a missing patch counting as an empty one, so no entry has
    more than 10. *)
Theorem formattedChanges_entries :
  forall fileChanges,
    map ProposalDetails.CodeChange.file
        (ProposalDetails.formattedChanges fileChanges) =
      map ProposalDetails.GitHubFile.filename fileChanges /\
    map ProposalDetails.CodeChange.additions
        (ProposalDetails.formattedChanges fileChanges) =
      map ProposalDetails.GitHubFile.additions fileChanges /\
    map ProposalDetails.CodeChange.deletions
        (ProposalDetails.formattedChanges fileChanges) =
      map ProposalDetails.GitHubFile.deletions fileChanges /\
    map ProposalDetails.CodeChange.changes
        (ProposalDetails.formattedChanges fileChanges) =
      map (fun f => parsePatch (ProposalDetails.or_empty
                                  (ProposalDetails.GitHubFile.patch f)))
          fileChanges /\
    Forall (fun c => (List.length (ProposalDetails.CodeChange.changes c)
                      <= 10)%nat)
           (ProposalDetails.formattedChanges fileChanges).
Proof.
  intros fileChanges. unfold ProposalDetails.formattedChanges.
  rewrite !map_map. repeat split; try reflexivity.
  - apply map_ext. intros f. apply formatChange_changes.
  - apply Forall_map. apply Forall_forall. intros f _.
    rewrite formatChange_changes, parsePatch_emitted.
    apply firstn_le_length.
Qed.

(** X10: for a selected file the additions and deletions shown are those
    the server sent for the first file of that name, and 0 when there is
    none.  For [index.html] the panel shows the 13 rows written in the
    page, whatever the server sent.  For any other selected file the
    fallback "No changes in this file" is shown exactly when no file has
    that name, so a file without a patch shows no row and no message.
    With no file selected the panel invites to select one and no count is
    shown. *)
Theorem shown_for_selected_file :
  forall fileChanges selectedFile,
    selectedFile <> "" ->
    ProposalDetails.shownCounts
      (ProposalDetails.formattedChanges fileChanges) (Some selectedFile) =
    Some
      (ProposalDetails.or_zero
         (option_map ProposalDetails.GitHubFile.additions
            (find (fun f => String.eqb (ProposalDetails.GitHubFile.filename f)
                                       selectedFile) fileChanges)),
       ProposalDetails.or_zero
         (option_map ProposalDetails.GitHubFile.deletions
            (find (fun f => String.eqb (ProposalDetails.GitHubFile.filename f)
                                       selectedFile) fileChanges))) /\
    ProposalDetails.codePanel
      (ProposalDetails.formattedChanges fileChanges) (Some "index.html") =
    ProposalDetails.Rows ProposalDetails.index_html_rows /\
    (selectedFile <> "index.html" ->
     (ProposalDetails.codePanel
        (ProposalDetails.formattedChanges fileChanges) (Some selectedFile) =
      ProposalDetails.NoChangesInThisFile <->
      forall f, In f fileChanges ->
        ProposalDetails.GitHubFile.filename f <> selectedFile) /\
     (forall f,
        find (fun f => String.eqb (ProposalDetails.GitHubFile.filename f)
                                  selectedFile) fileChanges = Some f ->
        ProposalDetails.GitHubFile.patch f = None ->
        ProposalDetails.codePanel
          (ProposalDetails.formattedChanges fileChanges) (Some selectedFile) =
        ProposalDetails.Rows [])) /\
    ProposalDetails.codePanel
      (ProposalDetails.formattedChanges fileChanges) None =
      ProposalDetails.SelectAFile /\
    ProposalDetails.codePanel
      (ProposalDetails.formattedChanges fileChanges) (Some "") =
      ProposalDetails.SelectAFile /\
    ProposalDetails.shownCounts
      (ProposalDetails.formattedChanges fileChanges) None = None.
Proof.
  intros fileChanges selectedFile Hne.
  destruct selectedFile as [|c s]; [contradiction|].
  unfold ProposalDetails.shownCounts, ProposalDetails.shownAdditions,
    ProposalDetails.shownDeletions, ProposalDetails.codePanel,
    ProposalDetails.findFile, ProposalDetails.formattedChanges.
  rewrite !find_map. cbn [ProposalDetails.formatChange
                          ProposalDetails.CodeChange.file].
  split.
  { destruct (find _ fileChanges) as [f|]; reflexivity. }
  split; [reflexivity|].
  split; [|repeat split].
  intros Hidx. apply String.eqb_neq in Hidx. rewrite Hidx.
  destruct (find _ fileChanges) as [f|] eqn:E; cbn [option_map].
  - repeat split; try discriminate.
    + intros H. apply find_some in E as [Hin Hf].
      apply String.eqb_eq in Hf. now apply H in Hin.
    + intros f' Hf' Hp.
      assert (f' = f) by congruence. subst f'.
      unfold ProposalDetails.formatChange.
      cbn [ProposalDetails.CodeChange.changes]. now rewrite Hp.
  - repeat split; try discriminate.
    intros _ f Hin. apply (find_none _ _ E) in Hin.
    now apply String.eqb_neq.
Qed.

Lemma shown_for_selected_file_witness :
  ProposalDetails.codePanel
    (ProposalDetails.formattedChanges
       [ {| ProposalDetails.GitHubFile.filename := "logo.png";
            ProposalDetails.GitHubFile.additions := 0;
            ProposalDetails.GitHubFile.deletions := 0;
            ProposalDetails.GitHubFile.patch := None |} ])
    (Some "logo.png") = ProposalDetails.Rows [].
Proof.
  apply (proj2 (proj1 (proj2 (proj2
           (shown_for_selected_file _ "logo.png" ltac:(discriminate))))
           ltac:(discriminate))
           {| ProposalDetails.GitHubFile.filename := "logo.png";
              ProposalDetails.GitHubFile.additions := 0;
              ProposalDetails.GitHubFile.deletions := 0;
              ProposalDetails.GitHubFile.patch := None |});
    reflexivity.
Defined.

(** ** [proposalOwner.tsx]: the map of collaborators *)

Section CollaboratorMap.
Import ProposalOwner.

Lemma get_modify m k f k' :
  get (modify m k f) k' =
  if String.eqb k' k then option_map f (get m k') else get m k'.
Proof.
  unfold get, modify. induction m as [|[k0 c0] m IH]; cbn [map find fst snd].
  - now destruct (String.eqb k' k).
  - destruct (String.eqb_spec k0 k) as [->|Hk]; cbn [fst snd].
    + destruct (String.eqb_spec k k') as [->|Hk'].
      * now rewrite String.eqb_refl.
      * exact IH.
    + destruct (String.eqb_spec k0 k') as [->|Hk'].
      * apply String.eqb_neq in Hk. now rewrite Hk.
      * exact IH.
Qed.

Lemma keys_modify m k f : map fst (modify m k f) = map fst m.
Proof.
  unfold modify. rewrite map_map. apply map_ext.
  intros [k0 c0]. cbn. now destruct (String.eqb k0 k).
Qed.

Lemma has_keys m k : has m k = existsb (String.eqb k) (map fst m).
Proof.
  unfold has. induction m as [|[k0 c0] m IH]; [reflexivity|].
  cbn. now rewrite IH, String.eqb_sym.
Qed.

Lemma has_In m k : has m k = true <-> In k (map fst m).
Proof.
  rewrite has_keys, existsb_exists. split.
  - intros (x & Hin & Hx). apply String.eqb_eq in Hx. now subst.
  - intros Hin. exists k. split; [exact Hin|apply String.eqb_refl].
Qed.

Lemma get_absent m k : has m k = false -> get m k = None.
Proof.
  unfold has, get. induction m as [|[k0 c0] m IH]; [reflexivity|].
  cbn. destruct (String.eqb k0 k); [discriminate|exact IH].
Qed.

Lemma get_present m k : has m k = true -> exists c, get m k = Some c.
Proof.
  unfold has, get. induction m as [|[k0 c0] m IH]; [discriminate|].
  cbn. destruct (String.eqb k0 k); [now exists c0|exact IH].
Qed.

Lemma get_new_entry m k v k' :
  has m k = false ->
  get (m ++ [(k, v)])%list k' = if String.eqb k' k then Some v else get m k'.
Proof.
  unfold has, get. induction m as [|[k0 c0] m IH]; cbn; intros H.
  - rewrite (String.eqb_sym k k'). now destruct (String.eqb k' k).
  - apply orb_false_iff in H as [H0 H].
    destruct (String.eqb_spec k0 k') as [->|Hk'].
    + now rewrite H0.
    + now apply IH.
Qed.

Lemma upsert_get m k init f k' :
  get (upsert m k init f) k' =
  if String.eqb k' k
  then Some (f (match get m k with Some c => c | None => init end))
  else get m k'.
Proof.
  unfold upsert. rewrite get_modify.
  destruct (has m k) eqn:Hh; cbn [negb].
  - destruct (String.eqb_spec k' k) as [->|Hk]; [|reflexivity].
    destruct (get_present m k Hh) as [c ->]. reflexivity.
  - unfold set. rewrite Hh, get_new_entry by assumption.
    destruct (String.eqb_spec k' k) as [->|Hk]; [|reflexivity].
    now rewrite (get_absent m k Hh).
Qed.

Lemma upsert_keys m k init f :
  map fst (upsert m k init f) = set_add (map fst m) k.
Proof.
  unfold upsert, set_add. rewrite keys_modify, <- has_keys.
  destruct (has m k) eqn:Hh; cbn [negb]; [reflexivity|].
  unfold set. rewrite Hh. now rewrite map_app.
Qed.

Lemma set_add_NoDup s x : NoDup s -> NoDup (set_add s x).
Proof.
  intros H. unfold set_add. destruct (existsb (String.eqb x) s) eqn:E;
    [exact H|].
  apply NoDup_app; [exact H|repeat constructor; intros []|].
  intros y Hy [Hxy|[]]. subst y.
  assert (existsb (String.eqb x) s = true); [|congruence].
  apply existsb_exists. exists x. split; [exact Hy|apply String.eqb_refl].
Qed.

Lemma set_add_In s x y : In y (set_add s x) <-> In y s \/ y = x.
Proof.
  unfold set_add. destruct (existsb (String.eqb x) s) eqn:E.
  - apply existsb_exists in E as (z & Hz & Hxz).
    apply String.eqb_eq in Hxz. subst z. split; [now left|].
    intros [H| ->]; assumption.
  - rewrite in_app_iff. cbn. intuition congruence.
Qed.

Lemma fold_set_add_NoDup l : forall s,
  NoDup s -> NoDup (fold_left set_add l s).
Proof.
  induction l as [|x l IH]; intros s H; [exact H|].
  cbn. apply IH. now apply set_add_NoDup.
Qed.

Lemma fold_set_add_In l y : forall s,
  In y (fold_left set_add l s) <-> In y s \/ In y l.
Proof.
  induction l as [|x l IH]; intros s; cbn.
  - tauto.
  - rewrite IH, set_add_In. intuition congruence.
Qed.

Variable date : string -> option Z.

Lemma keys_after_branches bs : forall m,
  map fst (fold_left (add_branch date) bs m) =
  fold_left set_add (map Branch.user_id bs) (map fst m).
Proof.
  induction bs as [|b bs IH]; intros m; [reflexivity|].
  cbn [fold_left map]. rewrite IH. f_equal. apply upsert_keys.
Qed.

Lemma keys_after_prs prs : forall m,
  map fst (fold_left (add_pr date) prs m) =
  fold_left set_add (map PullRequest.user_id prs) (map fst m).
Proof.
  induction prs as [|p prs IH]; intros m; [reflexivity|].
  cbn [fold_left map]. rewrite IH. f_equal. apply upsert_keys.
Qed.

Lemma keys_collaboratorMap bs prs :
  map fst (collaboratorMap date bs prs) = userIds bs prs.
Proof.
  unfold collaboratorMap, userIds.
  now rewrite keys_after_prs, keys_after_branches.
Qed.

(** The entry of a key after the first loop depends on the branches of
    that key alone. *)
Lemma get_after_branches bs : forall m k,
  get (fold_left (add_branch date) bs m) k =
  match get m k, branches_of k bs with
  | Some c, l => Some (after_branches date c l)
  | None, [] => None
  | None, b :: l =>
      Some (after_branches date
              (fresh (Branch.username b) (Branch.user_id b)
                 (Branch.created_at b)) (b :: l))
  end.
Proof.
  induction bs as [|b bs IH]; intros m k.
  - cbn. now destruct (get m k).
  - cbn [fold_left]. rewrite IH.
    change (add_branch date m b)
      with (upsert m (Branch.user_id b)
              (fresh (Branch.username b) (Branch.user_id b)
                 (Branch.created_at b)) (record_branch date b)).
    rewrite upsert_get. unfold branches_of. cbn [filter].
    rewrite (String.eqb_sym k).
    destruct (String.eqb_spec (Branch.user_id b) k) as [->|Hk].
    + now destruct (get m k).
    + reflexivity.
Qed.

Lemma get_after_prs prs : forall m k,
  get (fold_left (add_pr date) prs m) k =
  match get m k, prs_of k prs with
  | Some c, l => Some (after_prs date c l)
  | None, [] => None
  | None, p :: l =>
      Some (after_prs date
              (fresh (PullRequest.username p) (PullRequest.user_id p)
                 (PullRequest.created_at p)) (p :: l))
  end.
Proof.
  induction prs as [|p prs IH]; intros m k.
  - cbn. now destruct (get m k).
  - cbn [fold_left]. rewrite IH.
    change (add_pr date m p)
      with (upsert m (PullRequest.user_id p)
              (fresh (PullRequest.username p) (PullRequest.user_id p)
                 (PullRequest.created_at p)) (record_pr date p)).
    rewrite upsert_get. unfold prs_of. cbn [filter].
    rewrite (String.eqb_sym k).
    destruct (String.eqb_spec (PullRequest.user_id p) k) as [->|Hk].
    + now destruct (get m k).
    + reflexivity.
Qed.

End CollaboratorMap.

Section CollaboratorEntries.
Import ProposalOwner.
Variable date : string -> option Z.

Lemma after_branches_fields bs : forall c,
  username (after_branches date c bs) = username c /\
  user_id (after_branches date c bs) = user_id c /\
  github_login (after_branches date c bs) = github_login c /\
  avatar_url (after_branches date c bs) = avatar_url c /\
  wallet_address (after_branches date c bs) = wallet_address c /\
  branches_count (after_branches date c bs) =
    branches_count c + Z.of_nat (List.length bs) /\
  branches (after_branches date c bs) = (branches c ++ bs)%list /\
  prs_count (after_branches date c bs) = prs_count c /\
  merged_prs (after_branches date c bs) = merged_prs c /\
  open_prs (after_branches date c bs) = open_prs c /\
  pull_requests (after_branches date c bs) = pull_requests c.
Proof.
  induction bs as [|b bs IH]; intros c.
  - cbn. rewrite app_nil_r. repeat split; lia.
  - unfold after_branches in *. cbn [fold_left].
    destruct (IH (record_branch date b c))
      as (H1 & H2 & H3 & H4 & H5 & H6 & H7 & H8 & H9 & H10 & H11).
    rewrite H1, H2, H3, H4, H5, H6, H7, H8, H9, H10, H11.
    cbn [record_branch touch username user_id github_login avatar_url
         wallet_address branches_count branches prs_count merged_prs
         open_prs pull_requests List.length].
    unfold JS.push. rewrite <- app_assoc. cbn [app]. repeat split; lia.
Qed.

Lemma after_prs_fields prs : forall c,
  username (after_prs date c prs) = username c /\
  user_id (after_prs date c prs) = user_id c /\
  github_login (after_prs date c prs) = github_login c /\
  avatar_url (after_prs date c prs) = avatar_url c /\
  wallet_address (after_prs date c prs) = wallet_address c /\
  branches_count (after_prs date c prs) = branches_count c /\
  branches (after_prs date c prs) = branches c /\
  prs_count (after_prs date c prs) =
    prs_count c + Z.of_nat (List.length prs) /\
  merged_prs (after_prs date c prs) =
    merged_prs c + Z.of_nat (List.length (with_action "merged" prs)) /\
  open_prs (after_prs date c prs) =
    open_prs c + Z.of_nat (List.length (with_action "created" prs)) /\
  pull_requests (after_prs date c prs) = (pull_requests c ++ prs)%list.
Proof.
  induction prs as [|p prs IH]; intros c.
  - cbn. rewrite app_nil_r. repeat split; lia.
  - unfold after_prs in *. cbn [fold_left].
    destruct (IH (record_pr date p c))
      as (H1 & H2 & H3 & H4 & H5 & H6 & H7 & H8 & H9 & H10 & H11).
    rewrite H1, H2, H3, H4, H5, H6, H7, H8, H9, H10, H11.
    cbn [record_pr touch username user_id github_login avatar_url
         wallet_address branches_count branches prs_count merged_prs
         open_prs pull_requests List.length].
    unfold with_action, JS.push. cbn [filter].
    rewrite <- app_assoc. cbn [app].
    destruct (String.eqb_spec (PullRequest.action p) "merged") as [E|E].
    + rewrite E. cbn [String.eqb Ascii.eqb Bool.eqb andb List.length].
      change (("merged" =? "created")%string) with false.
      cbv iota. cbn [List.length]. repeat split; lia.
    + destruct (String.eqb (PullRequest.action p) "created");
        cbn [List.length]; repeat split; lia.
Qed.

Lemma two_actions prs :
  (List.length (with_action "merged" prs) +
   List.length (with_action "created" prs) <= List.length prs)%nat.
Proof.
  unfold with_action. induction prs as [|p prs IH]; [reflexivity|].
  cbn [filter].
  destruct (String.eqb_spec (PullRequest.action p) "merged") as [E|E].
  - rewrite E. change (("merged" =? "created")%string) with false.
    cbn [List.length]. lia.
  - destruct (String.eqb (PullRequest.action p) "created");
      cbn [List.length]; lia.
Qed.

Lemma branches_of_head k bs b l :
  branches_of k bs = b :: l -> Branch.user_id b = k.
Proof.
  intros H. assert (Hin : In b (branches_of k bs)) by (rewrite H; now left).
  apply filter_In in Hin as [_ Hb]. now apply String.eqb_eq.
Qed.

Lemma prs_of_head k prs p l :
  prs_of k prs = p :: l -> PullRequest.user_id p = k.
Proof.
  intros H. assert (Hin : In p (prs_of k prs)) by (rewrite H; now left).
  apply filter_In in Hin as [_ Hp]. now apply String.eqb_eq.
Qed.

(** The entry of a key in the finished map, from the activity of that
    key. *)
Lemma get_collaboratorMap bs prs k :
  get (collaboratorMap date bs prs) k =
  match branches_of k (elements bs), prs_of k (elements prs) with
  | b :: l, ps =>
      Some (after_prs date
              (after_branches date
                 (fresh (Branch.username b) k (Branch.created_at b)) (b :: l))
              ps)
  | [], p :: ps =>
      Some (after_prs date
              (fresh (PullRequest.username p) k (PullRequest.created_at p))
              (p :: ps))
  | [], [] => None
  end.
Proof.
  unfold collaboratorMap. rewrite get_after_prs, get_after_branches.
  cbn [get find option_map].
  destruct (branches_of k (elements bs)) as [|b l] eqn:Eb.
  - destruct (prs_of k (elements prs)) as [|p ps] eqn:Ep; [reflexivity|].
    now rewrite (prs_of_head _ _ _ _ Ep).
  - now rewrite (branches_of_head _ _ _ _ Eb).
Qed.

End CollaboratorEntries.

Section CollaboratorDates.
Import ProposalOwner.
Variable date : string -> option Z.

Lemma date_le_refl d : date d <> None -> date_le date d d.
Proof. unfold date_le. destruct (date d); [lia|congruence]. Qed.

(** One more date seen: the bounds move to hold it. *)
Lemma touch_bounds c ds d :
  (forall x, In x ds -> date x <> None) -> date d <> None ->
  bounds date c ds -> bounds date (touch date d c) (ds ++ [d]).
Proof.
  intros Hv Hd (Hf & Hl & Hb). unfold bounds.
  cbn [touch first_contribution last_activity].
  pose proof (Hv _ Hf) as Hvf. pose proof (Hv _ Hl) as Hvl.
  unfold date_lt.
  destruct (date d) as [td|] eqn:Ed; [|congruence].
  destruct (date (first_contribution c)) as [tf|] eqn:Ef; [|congruence].
  destruct (date (last_activity c)) as [tl|] eqn:El; [|congruence].
  assert (Hfl : tf <= tl).
  { destruct (Hb _ Hf) as [_ H]. unfold date_le in H. now rewrite Ef, El in H. }
  repeat split.
  - rewrite in_app_iff. destruct (td <? tf); [right; now left|now left].
  - rewrite in_app_iff. destruct (tl <? td); [right; now left|now left].
  - rewrite in_app_iff in H. destruct H as [H|[<-|[]]].
    + destruct (Hb _ H) as [H1 _]. unfold date_le in *.
      rewrite Ef in H1. destruct (td <? tf) eqn:E.
      * rewrite Ed. destruct (date d0); [|contradiction].
        apply Z.ltb_lt in E. lia.
      * now rewrite Ef.
    + unfold date_le. destruct (td <? tf) eqn:E.
      * rewrite Ed. lia.
      * rewrite Ef, Ed. apply Z.ltb_ge in E. lia.
  - rewrite in_app_iff in H. destruct H as [H|[<-|[]]].
    + destruct (Hb _ H) as [_ H1]. unfold date_le in *.
      rewrite El in H1. destruct (tl <? td) eqn:E.
      * rewrite Ed. destruct (date d0); [|contradiction].
        apply Z.ltb_lt in E. lia.
      * now rewrite El.
    + unfold date_le. destruct (tl <? td) eqn:E.
      * rewrite Ed. lia.
      * rewrite Ed, El. apply Z.ltb_ge in E. lia.
Qed.

Lemma after_branches_bounds bs : forall c ds,
  (forall x, In x ds -> date x <> None) ->
  (forall b, In b bs -> date (Branch.created_at b) <> None) ->
  bounds date c ds ->
  bounds date (after_branches date c bs) (ds ++ map Branch.created_at bs).
Proof.
  induction bs as [|b bs IH]; intros c ds Hv Hbs Hc.
  - cbn. now rewrite app_nil_r.
  - unfold after_branches. cbn [fold_left map].
    change (ds ++ Branch.created_at b :: map Branch.created_at bs)%list
      with (ds ++ [Branch.created_at b] ++ map Branch.created_at bs)%list.
    rewrite app_assoc. apply IH.
    + intros x Hx. apply in_app_iff in Hx as [Hx|[<-|[]]]; [now apply Hv|].
      apply Hbs. now left.
    + intros b' Hb'. apply Hbs. now right.
    + apply touch_bounds; [exact Hv|apply Hbs; now left|exact Hc].
Qed.

Lemma after_prs_bounds prs : forall c ds,
  (forall x, In x ds -> date x <> None) ->
  (forall p, In p prs -> date (PullRequest.created_at p) <> None) ->
  bounds date c ds ->
  bounds date (after_prs date c prs) (ds ++ map PullRequest.created_at prs).
Proof.
  induction prs as [|p prs IH]; intros c ds Hv Hps Hc.
  - cbn. now rewrite app_nil_r.
  - unfold after_prs. cbn [fold_left map].
    change (ds ++ PullRequest.created_at p
               :: map PullRequest.created_at prs)%list
      with (ds ++ [PullRequest.created_at p]
               ++ map PullRequest.created_at prs)%list.
    rewrite app_assoc. apply IH.
    + intros x Hx. apply in_app_iff in Hx as [Hx|[<-|[]]]; [now apply Hv|].
      apply Hps. now left.
    + intros p' Hp'. apply Hps. now right.
    + apply touch_bounds; [exact Hv|apply Hps; now left|exact Hc].
Qed.

Lemma fresh_bounds name uid d :
  date d <> None ->
  bounds date (touch date d (fresh name uid d)) [d].
Proof.
  intros Hd. unfold bounds.
  cbn [touch fresh first_contribution last_activity].
  assert (Hlt : date_lt date d d = false).
  { unfold date_lt. destruct (date d); [apply Z.ltb_irrefl|reflexivity]. }
  rewrite Hlt. repeat split; try (now left);
    destruct H as [<-|[]]; now apply date_le_refl.
Qed.

End CollaboratorDates.

Section CollaboratorTotals.
Import ProposalOwner.
Variable date : string -> option Z.

Lemma total_new_entry f m k v :
  total f (m ++ [(k, v)])%list = total f m + f v.
Proof.
  unfold total. induction m as [|[k0 c0] m IH]; cbn [app fold_right snd].
  - lia.
  - rewrite IH. lia.
Qed.

Lemma total_modify f g m k :
  NoDup (map fst m) ->
  total f (modify m k g) =
  total f m + match get m k with Some c => f (g c) - f c | None => 0 end.
Proof.
  unfold total, modify, get.
  induction m as [|[k0 c0] m IH]; cbn [map fold_right find fst snd];
    intros Hnd; [reflexivity|].
  inversion Hnd as [|? ? Hnot Hnd']; subst.
  destruct (String.eqb_spec k0 k) as [->|Hk]; cbn [fst snd option_map].
  - rewrite (IH Hnd').
    assert (Hnone : get m k = None).
    { apply get_absent. destruct (has m k) eqn:E; [|reflexivity].
      apply has_In in E. contradiction. }
    unfold get in Hnone. rewrite Hnone. lia.
  - rewrite (IH Hnd'). lia.
Qed.

(** One visit changes the sum of a count by what it adds to the entry. *)
Lemma total_upsert f g m k init delta :
  NoDup (map fst m) ->
  (forall c, f (g c) = f c + delta) -> f init = 0 ->
  total f (upsert m k init g) = total f m + delta.
Proof.
  intros Hnd Hg Hinit. unfold upsert.
  destruct (has m k) eqn:Hh; cbn [negb].
  - rewrite total_modify by assumption.
    destruct (get_present m k Hh) as [c ->]. rewrite Hg. lia.
  - unfold set. rewrite Hh.
    rewrite total_modify.
    + rewrite get_new_entry by assumption. rewrite String.eqb_refl.
      rewrite total_new_entry, Hg. lia.
    + rewrite map_app. cbn [map fst].
      pose proof (set_add_NoDup (map fst m) k Hnd) as H.
      unfold set_add in H. now rewrite <- has_keys, Hh in H.
Qed.

Lemma upsert_NoDup m k init g :
  NoDup (map fst m) -> NoDup (map fst (upsert m k init g)).
Proof. intros H. rewrite upsert_keys. now apply set_add_NoDup. Qed.

Lemma totals_after_branches bs : forall m,
  NoDup (map fst m) ->
  NoDup (map fst (fold_left (add_branch date) bs m)) /\
  total branches_count (fold_left (add_branch date) bs m) =
    total branches_count m + Z.of_nat (List.length bs) /\
  total prs_count (fold_left (add_branch date) bs m) = total prs_count m /\
  total merged_prs (fold_left (add_branch date) bs m) = total merged_prs m /\
  total open_prs (fold_left (add_branch date) bs m) = total open_prs m.
Proof.
  induction bs as [|b bs IH]; intros m Hnd.
  - cbn [fold_left List.length]. repeat split; try assumption; lia.
  - cbn [fold_left List.length].
    change (add_branch date m b)
      with (upsert m (Branch.user_id b)
              (fresh (Branch.username b) (Branch.user_id b)
                 (Branch.created_at b)) (record_branch date b)).
    match goal with
    | |- context [fold_left _ _ ?m'] =>
        destruct (IH m' ltac:(apply upsert_NoDup; exact Hnd))
          as (H0 & H1 & H2 & H3 & H4)
    end.
    rewrite H1, H2, H3, H4.
    rewrite (total_upsert branches_count _ m _ _ 1) by (trivial; reflexivity).
    rewrite (total_upsert prs_count _ m _ _ 0)
      by (trivial; intros; cbn; lia).
    rewrite (total_upsert merged_prs _ m _ _ 0)
      by (trivial; intros; cbn; lia).
    rewrite (total_upsert open_prs _ m _ _ 0)
      by (trivial; intros; cbn; lia).
    repeat split; try assumption; lia.
Qed.

Lemma totals_after_prs prs : forall m,
  NoDup (map fst m) ->
  total branches_count (fold_left (add_pr date) prs m) =
    total branches_count m /\
  total prs_count (fold_left (add_pr date) prs m) =
    total prs_count m + Z.of_nat (List.length prs) /\
  total merged_prs (fold_left (add_pr date) prs m) =
    total merged_prs m + Z.of_nat (List.length (with_action "merged" prs)) /\
  total open_prs (fold_left (add_pr date) prs m) =
    total open_prs m + Z.of_nat (List.length (with_action "created" prs)).
Proof.
  induction prs as [|p prs IH]; intros m Hnd.
  - cbn [fold_left List.length with_action filter]. repeat split; lia.
  - cbn [fold_left List.length].
    change (add_pr date m p)
      with (upsert m (PullRequest.user_id p)
              (fresh (PullRequest.username p) (PullRequest.user_id p)
                 (PullRequest.created_at p)) (record_pr date p)).
    match goal with
    | |- context [fold_left _ _ ?m'] =>
        destruct (IH m' ltac:(apply upsert_NoDup; exact Hnd))
          as (H1 & H2 & H3 & H4)
    end.
    rewrite H1, H2, H3, H4.
    rewrite (total_upsert branches_count _ m _ _ 0)
      by (trivial; intros; cbn; lia).
    rewrite (total_upsert prs_count _ m _ _ 1) by (trivial; reflexivity).
    rewrite (total_upsert merged_prs _ m _ _
               (if String.eqb (PullRequest.action p) "merged" then 1 else 0))
      by (trivial; intros; cbn;
          destruct (String.eqb (PullRequest.action p) "merged"); lia).
    rewrite (total_upsert open_prs _ m _ _
               (if String.eqb (PullRequest.action p) "merged" then 0
                else if String.eqb (PullRequest.action p) "created"
                     then 1 else 0))
      by (trivial; intros; cbn;
          destruct (String.eqb (PullRequest.action p) "merged");
          destruct (String.eqb (PullRequest.action p) "created"); lia).
    unfold with_action. cbn [filter].
    destruct (String.eqb_spec (PullRequest.action p) "merged") as [E|E].
    + rewrite E. change (("merged" =? "created")%string) with false.
      cbn [List.length]. repeat split; lia.
    + destruct (String.eqb (PullRequest.action p) "created");
        cbn [List.length]; repeat split; lia.
Qed.

End CollaboratorTotals.

(** From [Some x = Some c] to [c] replaced by [x], nothing unfolded. *)
Ltac some_subst H c :=
  apply (f_equal (fun o => match o with Some x => x | None => c end)) in H;
  cbv beta iota in H; subst c.

(** X11: the keys of the collaborator map are the user ids collected in
    [userIds], in the same order; no key comes twice; and a user id is a key
    exactly when a branch or a pull request of the activity carries it. *)
Theorem collaborator_keys :
  forall date bs prs,
    map fst (ProposalOwner.collaboratorMap date bs prs) =
      ProposalOwner.userIds bs prs /\
    NoDup (map fst (ProposalOwner.collaboratorMap date bs prs)) /\
    (forall k,
       In k (map fst (ProposalOwner.collaboratorMap date bs prs)) <->
       In k (map ProposalOwner.Branch.user_id (ProposalOwner.elements bs)) \/
       In k (map ProposalOwner.PullRequest.user_id
               (ProposalOwner.elements prs))).
Proof.
  intros date bs prs. rewrite keys_collaboratorMap.
  unfold ProposalOwner.userIds. split; [reflexivity|]. split.
  - apply fold_set_add_NoDup, fold_set_add_NoDup. constructor.
  - intros k. rewrite !fold_set_add_In. cbn [In]. tauto.
Qed.

(** X12: the entry of a user in the collaborator map holds the branches and
    the pull requests of that user, each in the order of the activity, and
    its two counts are their numbers; it is filed under the id it carries;
    its user name is the one on the first activity of the user (the first
    branch, or the first pull request of a user without branches), which is
    also its GitHub login and names its avatar. *)
Theorem collaborator_entry :
  forall date bs prs k c,
    ProposalOwner.get (ProposalOwner.collaboratorMap date bs prs) k = Some c ->
    ProposalOwner.user_id c = k /\
    ProposalOwner.branches c =
      ProposalOwner.branches_of k (ProposalOwner.elements bs) /\
    ProposalOwner.branches_count c =
      Z.of_nat (List.length (ProposalOwner.branches c)) /\
    ProposalOwner.pull_requests c =
      ProposalOwner.prs_of k (ProposalOwner.elements prs) /\
    ProposalOwner.prs_count c =
      Z.of_nat (List.length (ProposalOwner.pull_requests c)) /\
    ProposalOwner.first_username k (ProposalOwner.elements bs)
      (ProposalOwner.elements prs) = Some (ProposalOwner.username c) /\
    ProposalOwner.github_login c = ProposalOwner.username c /\
    ProposalOwner.avatar_url c =
      "https://github.com/" ++ ProposalOwner.username c ++ ".png".
Proof.
  intros date bs prs k c. rewrite get_collaboratorMap.
  unfold ProposalOwner.first_username.
  destruct (ProposalOwner.branches_of k (ProposalOwner.elements bs))
    as [|b l] eqn:Eb.
  - destruct (ProposalOwner.prs_of k (ProposalOwner.elements prs))
      as [|p ps] eqn:Ep; [discriminate|].
    intros Hc; some_subst Hc c.
    destruct (after_prs_fields date (p :: ps)
                (ProposalOwner.fresh (ProposalOwner.PullRequest.username p) k
                   (ProposalOwner.PullRequest.created_at p)))
      as (H1 & H2 & H3 & H4 & _ & H6 & H7 & H8 & _ & _ & H11).
    rewrite H1, H2, H3, H4, H6, H7, H8, H11. cbn. repeat split; lia.
  - intros Hc; some_subst Hc c.
    match goal with
    | |- context [ProposalOwner.after_prs date ?c0 ?ps] =>
        destruct (after_prs_fields date ps c0)
          as (H1 & H2 & H3 & H4 & _ & H6 & H7 & H8 & _ & _ & H11)
    end.
    rewrite H1, H2, H3, H4, H6, H7, H8, H11.
    destruct (after_branches_fields date (b :: l)
                (ProposalOwner.fresh (ProposalOwner.Branch.username b) k
                   (ProposalOwner.Branch.created_at b)))
      as (G1 & G2 & G3 & G4 & _ & G6 & G7 & G8 & _ & _ & G11).
    rewrite G1, G2, G3, G4, G6, G7, G8, G11. cbn. repeat split; lia.
Qed.

Lemma collaborator_entry_witness :
  exists c,
    ProposalOwner.get
      (ProposalOwner.collaboratorMap ProposalOwner.january
         (Some ProposalOwner.example_branches)
         (Some ProposalOwner.example_prs)) "u1" = Some c /\
    ProposalOwner.username c = "ada" /\
    ProposalOwner.branches c = ProposalOwner.example_branches /\
    ProposalOwner.prs_count c = 1.
Proof.
  eexists. split; [reflexivity|].
  pose proof (collaborator_entry ProposalOwner.january
                (Some ProposalOwner.example_branches)
                (Some ProposalOwner.example_prs) "u1" _ eq_refl) as H.
  split; [reflexivity|]. split; [exact (proj1 (proj2 H))|reflexivity].
Defined.

(** X13: in the entry of a user, [merged_prs] is the number of the pull
    requests of the user whose action is [merged] and [open_prs] the number
    of those whose action is [created]; together they never exceed
    [prs_count]. *)
Theorem collaborator_pull_request_counts :
  forall date bs prs k c,
    ProposalOwner.get (ProposalOwner.collaboratorMap date bs prs) k = Some c ->
    ProposalOwner.merged_prs c =
      Z.of_nat (List.length
                  (ProposalOwner.with_action "merged"
                     (ProposalOwner.prs_of k (ProposalOwner.elements prs)))) /\
    ProposalOwner.open_prs c =
      Z.of_nat (List.length
                  (ProposalOwner.with_action "created"
                     (ProposalOwner.prs_of k (ProposalOwner.elements prs)))) /\
    ProposalOwner.merged_prs c + ProposalOwner.open_prs c <=
      ProposalOwner.prs_count c.
Proof.
  intros date bs prs k c. rewrite get_collaboratorMap.
  pose proof (two_actions
                (ProposalOwner.prs_of k (ProposalOwner.elements prs))) as Hle.
  destruct (ProposalOwner.branches_of k (ProposalOwner.elements bs))
    as [|b l] eqn:Eb.
  - destruct (ProposalOwner.prs_of k (ProposalOwner.elements prs))
      as [|p ps] eqn:Ep; [discriminate|].
    intros Hc; some_subst Hc c.
    match goal with
    | |- context [ProposalOwner.after_prs date ?c0 ?ps] =>
        destruct (after_prs_fields date ps c0)
          as (_ & _ & _ & _ & _ & _ & _ & H8 & H9 & H10 & _)
    end.
    rewrite H8, H9, H10. cbn [ProposalOwner.fresh ProposalOwner.merged_prs
                              ProposalOwner.open_prs ProposalOwner.prs_count].
    repeat split; lia.
  - intros Hc; some_subst Hc c.
    match goal with
    | |- context [ProposalOwner.after_prs date ?c0 ?ps] =>
        destruct (after_prs_fields date ps c0)
          as (_ & _ & _ & _ & _ & _ & _ & H8 & H9 & H10 & _)
    end.
    rewrite H8, H9, H10.
    destruct (after_branches_fields date (b :: l)
                (ProposalOwner.fresh (ProposalOwner.Branch.username b) k
                   (ProposalOwner.Branch.created_at b)))
      as (_ & _ & _ & _ & _ & _ & _ & G8 & G9 & G10 & _).
    rewrite G8, G9, G10.
    cbn [ProposalOwner.fresh ProposalOwner.merged_prs
         ProposalOwner.open_prs ProposalOwner.prs_count].
    repeat split; lia.
Qed.

Lemma collaborator_pull_request_counts_witness :
  exists c,
    ProposalOwner.get
      (ProposalOwner.collaboratorMap ProposalOwner.january
         (Some ProposalOwner.example_branches)
         (Some ProposalOwner.example_prs)) "u2" = Some c /\
    ProposalOwner.merged_prs c = 0 /\ ProposalOwner.open_prs c = 1.
Proof.
  eexists. split; [reflexivity|].
  pose proof (collaborator_pull_request_counts ProposalOwner.january
                (Some ProposalOwner.example_branches)
                (Some ProposalOwner.example_prs) "u2" _ eq_refl) as H.
  split; [exact (proj1 H)|exact (proj1 (proj2 H))].
Defined.

(** X14: when every creation date of the activity of a user is a date, the
    first contribution of the entry is the earliest and its last activity
    the latest of them: both are creation dates of that activity, and every
    one of them lies between the two. *)
Theorem collaborator_dates :
  forall date bs prs k c,
    ProposalOwner.get (ProposalOwner.collaboratorMap date bs prs) k = Some c ->
    (forall d,
       In d (ProposalOwner.dates_of k (ProposalOwner.elements bs)
               (ProposalOwner.elements prs)) -> date d <> None) ->
    ProposalOwner.bounds date c
      (ProposalOwner.dates_of k (ProposalOwner.elements bs)
         (ProposalOwner.elements prs)).
Proof.
  intros date bs prs k c. rewrite get_collaboratorMap.
  unfold ProposalOwner.dates_of.
  destruct (ProposalOwner.branches_of k (ProposalOwner.elements bs))
    as [|b l] eqn:Eb.
  - destruct (ProposalOwner.prs_of k (ProposalOwner.elements prs))
      as [|p ps] eqn:Ep; [discriminate|].
    intros Hc Hv; some_subst Hc c. cbn [map app] in *.
    change (ProposalOwner.PullRequest.created_at p
              :: map ProposalOwner.PullRequest.created_at ps)
      with ([ProposalOwner.PullRequest.created_at p]
              ++ map ProposalOwner.PullRequest.created_at ps)%list.
    apply (after_prs_bounds date ps
             (ProposalOwner.record_pr date p
                (ProposalOwner.fresh (ProposalOwner.PullRequest.username p) k
                   (ProposalOwner.PullRequest.created_at p)))).
    + intros x [<-|[]]. apply Hv. now left.
    + intros p' Hp'. apply Hv. right. now apply in_map.
    + apply (fresh_bounds date). apply Hv. now left.
  - intros Hc Hv; some_subst Hc c.
    apply (after_prs_bounds date _ _
             (map ProposalOwner.Branch.created_at (b :: l))).
    + intros x Hx. apply Hv. apply in_or_app. now left.
    + intros p' Hp'. apply Hv. apply in_or_app. right. now apply in_map.
    + change (ProposalOwner.bounds date
                (ProposalOwner.after_branches date
                   (ProposalOwner.record_branch date b
                      (ProposalOwner.fresh (ProposalOwner.Branch.username b) k
                         (ProposalOwner.Branch.created_at b))) l)
                ([ProposalOwner.Branch.created_at b]
                   ++ map ProposalOwner.Branch.created_at l)%list).
      apply (after_branches_bounds date).
      * intros x [<-|[]]. apply Hv. now left.
      * intros b' Hb'. apply Hv. apply in_or_app. left. right.
        now apply in_map.
      * apply (fresh_bounds date). apply Hv. now left.
Qed.

Lemma collaborator_dates_witness :
  exists c,
    ProposalOwner.get
      (ProposalOwner.collaboratorMap ProposalOwner.january
         (Some ProposalOwner.example_branches)
         (Some ProposalOwner.example_prs)) "u1" = Some c /\
    ProposalOwner.first_contribution c = "2025-01-01T00:00:00Z" /\
    ProposalOwner.last_activity c = "2025-01-03T00:00:00Z" /\
    ProposalOwner.bounds ProposalOwner.january c
      ["2025-01-02T00:00:00Z"; "2025-01-01T00:00:00Z";
       "2025-01-03T00:00:00Z"].
Proof.
  eexists. split; [reflexivity|]. split; [reflexivity|].
  split; [reflexivity|].
  apply (collaborator_dates ProposalOwner.january
           (Some ProposalOwner.example_branches)
           (Some ProposalOwner.example_prs) "u1" _ eq_refl).
  intros d [<-|[<-|[<-|[]]]]; discriminate.
Defined.

(** X15: summed over the collaborators, the branch counts give the number
    of branches of the activity and the pull request counts the number of
    its pull requests; the merged and the open counts give the numbers of
    pull requests whose action is [merged] and [created]. *)
Theorem collaborator_totals :
  forall date bs prs,
    ProposalOwner.total ProposalOwner.branches_count
      (ProposalOwner.collaboratorMap date bs prs) =
      Z.of_nat (List.length (ProposalOwner.elements bs)) /\
    ProposalOwner.total ProposalOwner.prs_count
      (ProposalOwner.collaboratorMap date bs prs) =
      Z.of_nat (List.length (ProposalOwner.elements prs)) /\
    ProposalOwner.total ProposalOwner.merged_prs
      (ProposalOwner.collaboratorMap date bs prs) =
      Z.of_nat (List.length (ProposalOwner.with_action "merged"
                               (ProposalOwner.elements prs))) /\
    ProposalOwner.total ProposalOwner.open_prs
      (ProposalOwner.collaboratorMap date bs prs) =
      Z.of_nat (List.length (ProposalOwner.with_action "created"
                               (ProposalOwner.elements prs))).
Proof.
  intros date bs prs. unfold ProposalOwner.collaboratorMap.
  destruct (totals_after_branches date (ProposalOwner.elements bs) []
              ltac:(constructor)) as (Hnd & B1 & B2 & B3 & B4).
  destruct (totals_after_prs date (ProposalOwner.elements prs) _ Hnd)
    as (P1 & P2 & P3 & P4).
  rewrite P1, P2, P3, P4, B1, B2, B3, B4. cbn. repeat split; lia.
Qed.

(** ** [App.tsx]: the time left of an event *)

Lemma of_number_nonneg x :
  0 <= x -> JSString.of_number x = decimal (Z.to_nat x).
Proof.
  intros H. unfold JSString.of_number.
  destruct (x <? 0) eqn:E; [apply Z.ltb_lt in E; lia|reflexivity].
Qed.

Lemma decimal_head n :
  exists c s, decimal n = String c s /\ JS.is_digit c = true.
Proof.
  destruct (number_decimal n) as [Hd Hne].
  destruct (decimal n) as [|c s]; [contradiction|].
  cbn in Hd. apply andb_true_iff in Hd as [Hc _]. now exists c, s.
Qed.

Lemma show_not_expired a rest : EventDetail.show a ++ rest <> "Expired".
Proof.
  destruct a as [x|]; [|discriminate]. cbn [EventDetail.show].
  unfold JSString.of_number. destruct (x <? 0); [discriminate|].
  destruct (decimal_head (Z.to_nat x)) as (c & s & -> & Hc).
  cbn [append]. intros [= -> _]. discriminate.
Qed.

(** X16: for an end that is a date and lies after now, the text shown
    rounds the time left down: with [d], [h] and [m] the whole days, the
    whole hours of the rest and the whole minutes of what is left, the text
    is ["<d>d <h>h remaining"] when [d > 0], ["<h>h remaining"] when only
    [h > 0], and ["<m>m remaining"] otherwise; the minutes are not shown
    next to hours or days. *)
Theorem time_remaining_rounds_down :
  forall getTime now endDate e,
    getTime endDate = Some e -> now < e ->
    exists d h m r,
      e - now = d * EventDetail.DAY + h * EventDetail.HOUR
                + m * EventDetail.MINUTE + r /\
      0 <= d /\ 0 <= h < 24 /\ 0 <= m < 60 /\ 0 <= r < EventDetail.MINUTE /\
      EventDetail.formatTimeRemaining getTime now endDate =
      if 0 <? d
      then decimal (Z.to_nat d) ++ "d " ++ decimal (Z.to_nat h)
           ++ "h remaining"
      else if 0 <? h then decimal (Z.to_nat h) ++ "h remaining"
      else decimal (Z.to_nat m) ++ "m remaining".
Proof.
  intros getTime now endDate e He Hlt.
  exists ((e - now) / EventDetail.DAY),
         ((e - now) mod EventDetail.DAY / EventDetail.HOUR),
         ((e - now) mod EventDetail.HOUR / EventDetail.MINUTE),
         ((e - now) mod EventDetail.MINUTE).
  unfold EventDetail.formatTimeRemaining. rewrite He.
  cbn [EventDetail.sub EventDetail.le0 EventDetail.floor_div EventDetail.rem
       EventDetail.gt0 EventDetail.show option_map].
  assert (Hpos : 0 < e - now) by lia.
  destruct (e - now <=? 0) eqn:E; [apply Z.leb_le in E; lia|].
  rewrite !Z.rem_mod_nonneg by (unfold EventDetail.DAY, EventDetail.HOUR; lia).
  unfold EventDetail.DAY, EventDetail.HOUR, EventDetail.MINUTE.
  change (1000 * 60 * 60 * 24) with 86400000.
  change (1000 * 60 * 60) with 3600000.
  change (1000 * 60) with 60000.
  repeat split; try (Z.to_euclidean_division_equations; lia).
  rewrite !of_number_nonneg by (Z.to_euclidean_division_equations; lia).
  reflexivity.
Qed.

Lemma time_remaining_rounds_down_witness :
  EventDetail.formatTimeRemaining ProposalOwner.january 1735689600000
    "2025-01-02T00:00:00Z" = "1d 0h remaining" /\
  EventDetail.formatTimeRemaining ProposalOwner.january 1735769000000
    "2025-01-02T00:00:00Z" = "1h remaining".
Proof.
  split; [reflexivity|].
  destruct (time_remaining_rounds_down ProposalOwner.january 1735769000000
              "2025-01-02T00:00:00Z" 1735776000000 eq_refl eq_refl)
    as (d & h & m & r & _). reflexivity.
Defined.

(** X17: the text is ["Expired"] exactly when the end is a date that is not
    after now; for an end that is no date it is ["NaNm remaining"]. *)
Theorem time_remaining_expired :
  forall getTime now endDate,
    (EventDetail.formatTimeRemaining getTime now endDate = "Expired" <->
     exists e, getTime endDate = Some e /\ e <= now) /\
    (getTime endDate = None ->
     EventDetail.formatTimeRemaining getTime now endDate = "NaNm remaining").
Proof.
  intros getTime now endDate. unfold EventDetail.formatTimeRemaining.
  destruct (getTime endDate) as [e|] eqn:He;
    cbn [EventDetail.sub EventDetail.le0].
  - split; [|discriminate].
    destruct (e - now <=? 0) eqn:E.
    + split; [|reflexivity]. intros _. exists e.
      apply Z.leb_le in E. split; [reflexivity|lia].
    + split.
      * intros H. exfalso. revert H.
        repeat match goal with
               | |- context [if ?b then _ else _] => destruct b
               end; apply show_not_expired.
      * intros (e' & [= <-] & Hle). apply Z.leb_gt in E. lia.
  - split; [|reflexivity]. split; [discriminate|].
    intros (e & H & _). discriminate.
Qed.

Lemma replace_first_char a c b rep :
  JSString.includes a (String c "") = false ->
  JSString.replace (a ++ String c b) (String c "") rep = a ++ rep ++ b.
Proof.
  induction a as [|x a IH]; intros H.
  - cbn. now rewrite Ascii.eqb_refl.
  - rewrite includes_cons in H. apply orb_false_iff in H as [H1 H2].
    cbn in H1. rewrite andb_true_r in H1.
    cbn [append JSString.replace JS.startsWith]. rewrite H1. cbn [andb].
    now rewrite IH.
Qed.

(** X18: the label of an activity has the first underscore of its type
    turned into a space and nothing else changed: what follows the first
    underscore keeps its own underscores, and a type without underscore is
    its own label. *)
Theorem activityLabel_first_underscore :
  forall before after,
    JSString.includes before "_" = false ->
    EventDetail.activityLabel (before ++ "_" ++ after) =
      before ++ " " ++ after /\
    EventDetail.activityLabel before = before.
Proof.
  intros before after H. unfold EventDetail.activityLabel. split.
  - now apply replace_first_char.
  - now apply replace_absent.
Qed.

Lemma activityLabel_first_underscore_witness :
  EventDetail.activityLabel "pull_request_merged" = "pull request_merged".
Proof.
  exact (proj1 (activityLabel_first_underscore "pull" "request_merged"
                  eq_refl)).
Defined.

(** X19: for a fork address [<base>/<repo>] whose [<repo>] holds no [/],
    the command copied clones [<base>/<repo>.git], enters [<repo>] and
    checks the branch out. *)
Theorem cloneCommand_enters_repository :
  forall base repo branchName,
    JSString.includes repo "/" = false ->
    EventDetail.cloneCommand (base ++ "/" ++ repo) branchName =
    "git clone " ++ base ++ "/" ++ repo ++ ".git && cd " ++ repo
    ++ " && git checkout " ++ branchName.
Proof.
  intros base repo branchName H. unfold EventDetail.cloneCommand.
  cbn [append]. rewrite split_append, (split_absent repo "/" H), pop_snoc.
  cbv iota beta. f_equal. f_equal. f_equal. f_equal.
  f_equal. f_equal. f_equal. f_equal. f_equal. f_equal.
  now rewrite !string_app_assoc.
Qed.

Lemma cloneCommand_enters_repository_witness :
  EventDetail.cloneCommand "https://github.com/ada/forge" "event-1" =
  "git clone https://github.com/ada/forge.git && cd forge && git checkout event-1".
Proof.
  exact (cloneCommand_enters_repository "https://github.com/ada" "forge"
           "event-1" eq_refl).
Defined.

(** ** [navbar.tsx] and [profile.tsx] *)

Lemma take_length n : forall s,
  String.length (JSString.take n s) = Nat.min n (String.length s).
Proof.
  induction n as [|n IH]; intros [|c s]; cbn; try reflexivity.
  now rewrite IH.
Qed.

Lemma drop_length n : forall s,
  String.length (JSString.drop n s) = (String.length s - n)%nat.
Proof.
  induction n as [|n IH]; intros [|c s]; cbn; try reflexivity.
  now rewrite IH.
Qed.

Lemma take_all n : forall s,
  (String.length s <= n)%nat -> JSString.take n s = s.
Proof.
  induction n as [|n IH]; intros [|c s] H; cbn in *; try reflexivity;
    try lia.
  rewrite IH; [reflexivity|lia].
Qed.

Lemma string_length_app a b :
  String.length (a ++ b) = (String.length a + String.length b)%nat.
Proof. induction a as [|c a IH]; cbn; [reflexivity|now rewrite IH]. Qed.

Lemma slice_first_six w :
  JSString.slice w 0 (Some 6) = JSString.take 6 w.
Proof.
  unfold JSString.slice, JSString.relative. cbv zeta.
  change (0 <? 0) with false. change (6 <? 0) with false. cbv iota.
  rewrite (Z.min_l 0) by lia. cbn [Z.to_nat JSString.drop].
  destruct (Nat.le_gt_cases (String.length w) 6) as [Hl|Hl].
  - rewrite (Z.min_r 6) by lia. rewrite Z.sub_0_r, Z.max_l by lia.
    rewrite Nat2Z.id. now rewrite !take_all by lia.
  - rewrite (Z.min_l 6) by lia. reflexivity.
Qed.

Lemma slice_last_four w :
  JSString.slice w (-4) None =
  JSString.drop (String.length w - 4) w.
Proof.
  unfold JSString.slice, JSString.relative. cbv zeta.
  change (-4 <? 0) with true. cbv iota.
  replace (Z.to_nat (Z.max (Z.of_nat (String.length w) + -4) 0))
    with (String.length w - 4)%nat by lia.
  apply take_all. rewrite drop_length. lia.
Qed.

(** X20: for an address that is not empty the wallet button of the
    navigation bar and the profile header both show its first six code
    units, three dots and its last four; the text has
    [min 6 n + 3 + min 4 n] code units for an address of [n], so at most 13;
    an address of at most four code units is shown whole on both sides of
    the dots.  Without an address, or with an empty one, the button reads
    ["Connect Wallet"] and the profile header shows nothing. *)
Theorem walletLabel_shape :
  forall w,
    w <> "" ->
    Navbar.walletLabel (Some w) =
      JSString.take 6 w ++ "..." ++ JSString.drop (String.length w - 4) w /\
    Profile.walletText (Some w) = Some (Navbar.walletLabel (Some w)) /\
    String.length (Navbar.walletLabel (Some w)) =
      (Nat.min 6 (String.length w) + 3 + Nat.min 4 (String.length w))%nat /\
    ((String.length w <= 4)%nat ->
     Navbar.walletLabel (Some w) = w ++ "..." ++ w) /\
    Navbar.walletLabel None = "Connect Wallet" /\
    Navbar.walletLabel (Some "") = "Connect Wallet" /\
    Profile.walletText None = None /\
    Profile.walletText (Some "") = None.
Proof.
  intros w Hw.
  assert (H : Navbar.walletLabel (Some w) =
    JSString.take 6 w ++ "..." ++ JSString.drop (String.length w - 4) w).
  { destruct w as [|c s]; [contradiction|]. unfold Navbar.walletLabel.
    now rewrite slice_first_six, slice_last_four. }
  assert (Hp : Profile.walletText (Some w) = Some (Navbar.walletLabel (Some w))).
  { destruct w as [|c s]; [contradiction|]. reflexivity. }
  rewrite Hp, H. repeat split.
  - rewrite !string_length_app, take_length, drop_length.
    cbn [String.length]. lia.
  - intros Hl. rewrite take_all by lia.
    replace (String.length w - 4)%nat with 0%nat by lia.
    now destruct w.
Qed.

Lemma walletLabel_shape_witness :
  Navbar.walletLabel (Some "0x52908400098527886E0F7030069857D2E4169EE7") =
    "0x5290...9EE7" /\
  Profile.walletText (Some "0x52908400098527886E0F7030069857D2E4169EE7") =
    Some "0x5290...9EE7" /\
  Navbar.walletLabel (Some "abc") = "abc...abc".
Proof.
  split; [|split].
  - exact (proj1 (walletLabel_shape
                    "0x52908400098527886E0F7030069857D2E4169EE7"
                    ltac:(discriminate))).
  - exact (proj1 (proj2 (walletLabel_shape
                    "0x52908400098527886E0F7030069857D2E4169EE7"
                    ltac:(discriminate)))).
  - exact (proj1 (proj2 (proj2 (proj2 (walletLabel_shape "abc"
                    ltac:(discriminate))))) ltac:(cbn; lia)).
Defined.

(** X21: on the profile page the active and the completed proposals
    together never outnumber the proposals, and they make up all of them
    exactly when every status is [pending], [approved] or [completed]. *)
Theorem profile_counts :
  forall statuses,
    (Profile.activeProposals statuses + Profile.completedProposals statuses
     <= Profile.totalProposals statuses)%nat /\
    ((Profile.activeProposals statuses + Profile.completedProposals statuses
      = Profile.totalProposals statuses)%nat <->
     Forall (fun s => s = "pending" \/ s = "approved" \/ s = "completed")
       statuses).
Proof.
  unfold Profile.activeProposals, Profile.completedProposals,
    Profile.totalProposals.
  induction statuses as [|s l [IH1 IH2]].
  - split; [reflexivity|]. split; [constructor|reflexivity].
  - cbn [filter List.length].
    assert (Hf1 := filter_length_le
                     (fun s => String.eqb s "pending" || String.eqb s "approved") l).
    destruct (String.eqb_spec s "pending") as [->|E1].
    + cbn [orb]. change (("pending" =? "completed")%string) with false.
      cbn [List.length]. split; [lia|]. split.
      * intros H. constructor; [now left|]. apply IH2. lia.
      * intros H. inversion H; subst. apply IH2 in H3. lia.
    + destruct (String.eqb_spec s "approved") as [->|E2].
      * cbn [orb]. change (("approved" =? "completed")%string) with false.
        cbn [List.length]. split; [lia|]. split.
        -- intros H. constructor; [right; now left|]. apply IH2. lia.
        -- intros H. inversion H; subst. apply IH2 in H3. lia.
      * cbn [orb]. destruct (String.eqb_spec s "completed") as [->|E3].
        -- cbn [List.length]. split; [lia|]. split.
           ++ intros H. constructor; [right; now right|]. apply IH2. lia.
           ++ intros H. inversion H; subst. apply IH2 in H3. lia.
        -- cbn [List.length]. split; [lia|]. split.
           ++ intros H. lia.
           ++ intros H. inversion H; subst. intuition congruence.
Qed.

(** X22: whatever the server address and the proposal, the address asked
    for the activity when the page loads and the one asked when it is
    refreshed are different: the second has a [/] before [api] that the
    first has not. *)
Theorem activity_addresses_differ :
  forall serverUrl proposalId,
    ProposalDetails.fetchActivityUrl serverUrl proposalId <>
    ProposalDetails.refreshActivityUrl serverUrl proposalId /\
    ProposalDetails.refreshActivityUrl serverUrl proposalId =
    ProposalDetails.fetchActivityUrl (serverUrl ++ "/") proposalId.
Proof.
  intros serverUrl proposalId.
  unfold ProposalDetails.fetchActivityUrl, ProposalDetails.refreshActivityUrl.
  split.
  - induction serverUrl as [|c s IH]; cbn [append].
    + discriminate.
    + intros [= H]. now apply IH.
  - now rewrite string_app_assoc.
Qed.
